(** * TextMate worker synchronisation (textMateService.ts)

  A shallow embedding of
  [src/vs/workbench/services/textMate/electron-browser/textMateService.ts]:
  the per-buffer synchroniser [ModelWorkerTextMateTokenizer] and the
  worker lifecycle manager [TextMateService], followed by the properties
  the specification states about them.

  Conventions.
  - The host is single threaded: every handler runs to completion, so a
    handler is a function from the state before to the state after.
  - Calls on the worker proxy are fire-and-forget; what is observable is
    the sequence of calls, which every operation returns (synchroniser
    level) or appends to a log (manager level).
  - Objects that the code shares by reference (text models, synchronisers,
    workers) carry an identity; the manager keeps its synchronisers in a
    store and its map holds references into it. *)

From stdpp Require Import base list strings.

Set Default Proof Using "Type".

(** ** Data model *)

(** Identity of a web worker created by [createWebWorker]; the proxy that
  [worker.getProxy()] resolves to is identified with its worker. *)
Definition WorkerId := nat.

Module LanguageIdentifier.
Record t := mk { language : string; id : nat }.
End LanguageIdentifier.

(** Modelled from the spec: [IModelContentChangedEvent] is declared in
  [vs/editor/common/model/textModelEvents]; a change event is an ordered
  sequence of edits, each with the replaced range and the new text, and
  carries the resulting version. *)
Module Range.
Record t := mk
  { startLineNumber : nat; startColumn : nat;
    endLineNumber : nat; endColumn : nat }.
End Range.

Module IModelContentChange.
Record t := mk { range : Range.t; text : string }.
End IModelContentChange.

Module IModelContentChangedEvent.
Record t := mk
  { changes : list IModelContentChange.t;
    eol : string;
    versionId : nat }.
End IModelContentChangedEvent.

(** Modelled from the spec: [ITextModel] is declared in
  [vs/editor/common/model]; a buffer has a unique identifier (URI), a
  version, an ordered line sequence, an end-of-line marker, a language
  identifier, the flag "attached to a visible editor" and the flag "too
  large to sync". The fields are named after the accessors the source
  calls; [id] is the identity of the object, [uri] stands for
  [uri.toString()]. *)
Module ITextModel.
Record t := mk
  { id : nat;
    uri : string;
    getVersionId : nat;
    getLinesContent : list string;
    getEOL : string;
    getLanguageIdentifier : LanguageIdentifier.t;
    isAttachedToEditor : bool;
    isTooLargeForSyncing : bool }.

(** What a holder of a reference keeps of the object: its identity and
    its readonly [uri]. Everything else is read from the object when a
    handler runs. *)
Record ref := mkref { ref_id : nat; ref_uri : string }.

Definition ref_of (m : t) : ref := {| ref_id := id m; ref_uri := uri m |}.
End ITextModel.

(** The argument of [acceptNewModel] (lines 68-74). *)
Module IRawModelData.
Record t := mk
  { uri : string;
    versionId : nat;
    lines : list string;
    EOL : string;
    languageId : nat }.
End IRawModelData.

(** The methods of the [TextMateWorker] proxy that the host calls. *)
Inductive TextMateWorker :=
| acceptNewModel (data : IRawModelData.t)
| acceptModelChanged (strURL : string) (e : IModelContentChangedEvent.t)
| acceptModelLanguageChanged (strURL : string) (newLanguageId : nat)
| acceptRemovedModel (strURL : string).

(** The notifications of a text model a synchroniser listens to. *)
Inductive ModelEmitter := onDidChangeAttached | onDidChangeContent | onDidChangeLanguage.

Global Instance ModelEmitter_eq_dec : EqDecision ModelEmitter.
Proof. solve_decision. Defined.

(** Modelled from the spec: [Disposable] is declared in
  [vs/base/common/lifecycle]; listener registration returns a handle whose
  release unsubscribes exactly once, idempotently. [_register] adds a
  handle to the store, [dispose] releases every handle the store holds and
  marks the store disposed; a second [dispose] finds nothing to release. *)
Module Disposable.
Record t := mk { _toDispose : list ModelEmitter; _isDisposed : bool }.

Definition new : t := {| _toDispose := []; _isDisposed := false |}.

Definition _register (l : ModelEmitter) (d : t) : t :=
  if _isDisposed d then d
  else {| _toDispose := _toDispose d ++ [l]; _isDisposed := false |}.

Definition dispose (d : t) : t :=
  {| _toDispose := []; _isDisposed := true |}.

(** Is a listener for emitter [l] currently subscribed? *)
Definition listens (l : ModelEmitter) (d : t) : bool :=
  bool_decide (l ∈ _toDispose d).
End Disposable.

(** ** The per-buffer synchroniser, class [ModelWorkerTextMateTokenizer] *)

Module ModelWorkerTextMateTokenizer.

Record t := mk
  { _super : Disposable.t;
    _worker : WorkerId;
    _model : ITextModel.ref;
    _isSynced : bool }.

(** An operation yields the synchroniser afterwards and the calls it made
    on [_worker], in order. *)
Definition result : Type := t * list TextMateWorker.

Definition ret (self : t) : result := (self, []).

Definition andThen (r : result) (k : t -> result) : result :=
  let (self, calls) := r in
  let (self', calls') := k self in
  (self', calls ++ calls').

Definition set_isSynced (b : bool) (self : t) : t :=
  {| _super := _super self; _worker := _worker self;
     _model := _model self; _isSynced := b |}.

Definition set_super (d : Disposable.t) (self : t) : t :=
  {| _super := d; _worker := _worker self;
     _model := _model self; _isSynced := _isSynced self |}.

Definition _register (l : ModelEmitter) (self : t) : t :=
  set_super (Disposable._register l (_super self)) self.

Definition model_uri (self : t) : string := ITextModel.ref_uri (_model self).

(** Lines 66-75. [m] is the current state of the object [_model self]. *)
Definition _beginSync (m : ITextModel.t) (self : t) : result :=
  (set_isSynced true self,
   [acceptNewModel
      {| IRawModelData.uri := model_uri self;
         IRawModelData.versionId := ITextModel.getVersionId m;
         IRawModelData.lines := ITextModel.getLinesContent m;
         IRawModelData.EOL := ITextModel.getEOL m;
         IRawModelData.languageId :=
           LanguageIdentifier.id (ITextModel.getLanguageIdentifier m) |}]).

(** Lines 77-79. The flag [_isSynced] is left as it is. *)
Definition _endSync (self : t) : result :=
  (self, [acceptRemovedModel (model_uri self)]).

(** Lines 54-64. *)
Definition _onDidChangeAttached (m : ITextModel.t) (self : t) : result :=
  if ITextModel.isAttachedToEditor m then
    if negb (_isSynced self) then _beginSync m self else ret self
  else
    if _isSynced self then _endSync self else ret self.

(** Lines 41-45, the listener on [onDidChangeContent]. *)
Definition _onDidChangeContent (e : IModelContentChangedEvent.t) (self : t) : result :=
  if _isSynced self then (self, [acceptModelChanged (model_uri self) e])
  else ret self.

(** Lines 47-51, the listener on [onDidChangeLanguage]. *)
Definition _onDidChangeLanguage (m : ITextModel.t) (self : t) : result :=
  if _isSynced self then
    (self, [acceptModelLanguageChanged (model_uri self)
              (LanguageIdentifier.id (ITextModel.getLanguageIdentifier m))])
  else ret self.

(** Lines 32-52, the constructor. *)
Definition new (worker : WorkerId) (model : ITextModel.t) : result :=
  let self :=
    {| _super := Disposable.new; _worker := worker;
       _model := ITextModel.ref_of model; _isSynced := false |} in
  let self := _register onDidChangeAttached self in
  andThen (_onDidChangeAttached model self) (fun self =>
  let self := _register onDidChangeContent self in
  let self := _register onDidChangeLanguage self in
  ret self).

(** [super.dispose()]: releases the three listeners. *)
Definition super_dispose (self : t) : t :=
  set_super (Disposable.dispose (_super self)) self.

(** Lines 81-84. *)
Definition dispose (self : t) : result :=
  andThen (ret (super_dispose self)) _endSync.

Definition listens (l : ModelEmitter) (self : t) : bool :=
  Disposable.listens l (_super self).

End ModelWorkerTextMateTokenizer.


(** ** One buffer and the notifications it fires *)

(** Modelled from the spec: the emitters of [ITextModel] are declared in
  [vs/editor/common/model]; a buffer is mutated from outside and exposes
  attach-state, content-change and language-change notifications. Each
  mutation fires the matching notification, which reaches the listeners
  that are still registered. *)
Inductive ModelEvent :=
| changeAttached (attached : bool)
| changeContent (e : IModelContentChangedEvent.t) (lines : list string)
| changeLanguage (languageIdentifier : LanguageIdentifier.t).

(** Modelled from the spec: the buffer after the mutation behind a
  notification. A content change installs the lines, the version and the
  end-of-line marker of the event; the URI, the identity and the size flag
  of a buffer never change. *)
Definition mutate (ev : ModelEvent) (m : ITextModel.t) : ITextModel.t :=
  match ev with
  | changeAttached b =>
      ITextModel.mk (ITextModel.id m) (ITextModel.uri m)
        (ITextModel.getVersionId m) (ITextModel.getLinesContent m)
        (ITextModel.getEOL m) (ITextModel.getLanguageIdentifier m)
        b (ITextModel.isTooLargeForSyncing m)
  | changeContent e lines =>
      ITextModel.mk (ITextModel.id m) (ITextModel.uri m)
        (IModelContentChangedEvent.versionId e) lines
        (IModelContentChangedEvent.eol e) (ITextModel.getLanguageIdentifier m)
        (ITextModel.isAttachedToEditor m) (ITextModel.isTooLargeForSyncing m)
  | changeLanguage l =>
      ITextModel.mk (ITextModel.id m) (ITextModel.uri m)
        (ITextModel.getVersionId m) (ITextModel.getLinesContent m)
        (ITextModel.getEOL m) l
        (ITextModel.isAttachedToEditor m) (ITextModel.isTooLargeForSyncing m)
  end.

Definition emitter (ev : ModelEvent) : ModelEmitter :=
  match ev with
  | changeAttached _ => onDidChangeAttached
  | changeContent _ _ => onDidChangeContent
  | changeLanguage _ => onDidChangeLanguage
  end.

(** The listener a synchroniser registered for the notification, run on the
  buffer [m] as it is when the notification fires. *)
Definition listener (ev : ModelEvent) (m : ITextModel.t)
    (self : ModelWorkerTextMateTokenizer.t) : ModelWorkerTextMateTokenizer.result :=
  match ev with
  | changeAttached _ => ModelWorkerTextMateTokenizer._onDidChangeAttached m self
  | changeContent e _ => ModelWorkerTextMateTokenizer._onDidChangeContent e self
  | changeLanguage _ => ModelWorkerTextMateTokenizer._onDidChangeLanguage m self
  end.

(** Modelled from the spec: firing reaches the listener only while it is
  registered. *)
Definition fire (ev : ModelEvent) (m : ITextModel.t)
    (self : ModelWorkerTextMateTokenizer.t) : ModelWorkerTextMateTokenizer.result :=
  if ModelWorkerTextMateTokenizer.listens (emitter ev) self
  then listener ev m self
  else ModelWorkerTextMateTokenizer.ret self.

(** A buffer together with one synchroniser on it. *)
Module Session.

Record t := mk
  { model : ITextModel.t;
    tokenizer : ModelWorkerTextMateTokenizer.t;
    sent : list TextMateWorker }.

(** [new ModelWorkerTextMateTokenizer(worker, model)] *)
Definition start (worker : WorkerId) (m : ITextModel.t) : t :=
  let (self, calls) := ModelWorkerTextMateTokenizer.new worker m in
  {| model := m; tokenizer := self; sent := calls |}.

Definition step (s : t) (ev : ModelEvent) : t :=
  let m := mutate ev (model s) in
  let (self, calls) := fire ev m (tokenizer s) in
  {| model := m; tokenizer := self; sent := sent s ++ calls |}.

Definition run (s : t) (evs : list ModelEvent) : t := foldl step s evs.

(** [tokenizer.dispose()] *)
Definition dispose (s : t) : t :=
  let (self, calls) := ModelWorkerTextMateTokenizer.dispose (tokenizer s) in
  {| model := model s; tokenizer := self; sent := sent s ++ calls |}.

End Session.


(** ** The worker lifecycle manager, class [TextMateService] *)

(** Modelled from the spec: [IValidGrammarDefinition] is declared in
  [vs/workbench/services/textMate/common/TMScopeRegistry]; the manager only
  hands the definitions of a grammar set to the worker it creates. *)
Module IValidGrammarDefinition.
Record t := mk { scopeName : string; location : string }.
End IValidGrammarDefinition.

(** What the manager does to the outside: calls on a worker proxy, creation
  and disposal of a web worker. *)
Inductive Effect :=
| call (proxy : WorkerId) (c : TextMateWorker)
| createWebWorker (worker : WorkerId) (grammarDefinitions : list IValidGrammarDefinition.t)
| worker_dispose (worker : WorkerId).

(** A JavaScript object used as a map from strings to references
  ([Object.create(null)], line 117): an association list in insertion
  order, which is the order of [Object.keys] for keys that are not array
  indices, as the strings of URIs are. Assigning to a present key keeps
  its place. *)
Module JsObject.

Definition t := list (string * nat).

Fixpoint get (key : string) (o : t) : option nat :=
  match o with
  | [] => None
  | (k, v) :: o' => if String.eqb k key then Some v else get key o'
  end.

Fixpoint set (key : string) (v : nat) (o : t) : t :=
  match o with
  | [] => [(key, v)]
  | (k, x) :: o' =>
      if String.eqb k key then (k, v) :: o' else (k, x) :: set key v o'
  end.

Fixpoint delete (key : string) (o : t) : t :=
  match o with
  | [] => []
  | (k, x) :: o' =>
      if String.eqb k key then delete key o' else (k, x) :: delete key o'
  end.

Definition keys (o : t) : list string := o.*1.

End JsObject.

Module TextMateService.

(** The fields of the class (lines 101-103, 112) and, below them, what the
  class reaches through references: the synchroniser objects it created
  ([_tokenizers] maps a key to a position in [objects]), the effects so
  far, the supply of worker and model identities, and the workers whose
  [getProxy()] promise has not resolved yet. [_modelService] stands for
  [this._modelService.getModels()]. *)
Record t := mk
  { _worker : option WorkerId;
    _workerProxy : option WorkerId;
    _tokenizers : JsObject.t;
    _modelService : list ITextModel.t;
    objects : list ModelWorkerTextMateTokenizer.t;
    log : list Effect;
    nextWorker : WorkerId;
    nextModel : nat;
    pending : list WorkerId }.

Definition set_worker (w : option WorkerId) (s : t) : t :=
  mk w (_workerProxy s) (_tokenizers s) (_modelService s) (objects s)
     (log s) (nextWorker s) (nextModel s) (pending s).

Definition set_workerProxy (p : option WorkerId) (s : t) : t :=
  mk (_worker s) p (_tokenizers s) (_modelService s) (objects s)
     (log s) (nextWorker s) (nextModel s) (pending s).

Definition set_tokenizers (o : JsObject.t) (s : t) : t :=
  mk (_worker s) (_workerProxy s) o (_modelService s) (objects s)
     (log s) (nextWorker s) (nextModel s) (pending s).

Definition set_modelService (ms : list ITextModel.t) (s : t) : t :=
  mk (_worker s) (_workerProxy s) (_tokenizers s) ms (objects s)
     (log s) (nextWorker s) (nextModel s) (pending s).

Definition set_objects (os : list ModelWorkerTextMateTokenizer.t) (s : t) : t :=
  mk (_worker s) (_workerProxy s) (_tokenizers s) (_modelService s) os
     (log s) (nextWorker s) (nextModel s) (pending s).

Definition set_pending (ws : list WorkerId) (s : t) : t :=
  mk (_worker s) (_workerProxy s) (_tokenizers s) (_modelService s) (objects s)
     (log s) (nextWorker s) (nextModel s) ws.

Definition emit (es : list Effect) (s : t) : t :=
  mk (_worker s) (_workerProxy s) (_tokenizers s) (_modelService s) (objects s)
     (log s ++ es) (nextWorker s) (nextModel s) (pending s).

(** [new ModelWorkerTextMateTokenizer(proxy, model)]: the new object is
  stored at the end of [objects]; its calls go to [proxy]. *)
Definition new_tokenizer (proxy : WorkerId) (model : ITextModel.t) (s : t) : nat * t :=
  let (tokenizer, calls) := ModelWorkerTextMateTokenizer.new proxy model in
  (length (objects s),
   emit (call proxy <$> calls) (set_objects (objects s ++ [tokenizer]) s)).

(** [tokenizer.dispose()] on the object at position [i]. *)
Definition tokenizer_dispose (i : nat) (s : t) : t :=
  match objects s !! i with
  | Some tokenizer =>
      let (tokenizer', calls) := ModelWorkerTextMateTokenizer.dispose tokenizer in
      emit (call (ModelWorkerTextMateTokenizer._worker tokenizer) <$> calls)
           (set_objects (<[i := tokenizer']> (objects s)) s)
  | None => s
  end.

(** Lines 123-133. *)
Definition _onModelAdded (model : ITextModel.t) (s : t) : t :=
  match _workerProxy s with
  | None => s
  | Some proxy =>
      if ITextModel.isTooLargeForSyncing model then s
      else
        let key := ITextModel.uri model in
        let (tokenizer, s) := new_tokenizer proxy model s in
        set_tokenizers (JsObject.set key tokenizer (_tokenizers s)) s
  end.

(** Lines 135-141. *)
Definition _onModelRemoved (model : ITextModel.t) (s : t) : t :=
  let key := ITextModel.uri model in
  match JsObject.get key (_tokenizers s) with
  | Some tokenizer =>
      let s := tokenizer_dispose tokenizer s in
      set_tokenizers (JsObject.delete key (_tokenizers s)) s
  | None => s
  end.

(** [this._modelService.getModels().forEach((model) => this._onModelAdded(model))] *)
Definition forEach_onModelAdded (s : t) : t :=
  foldl (fun s model => _onModelAdded model s) s (_modelService s).

(** Lines 181-192. The loop visits the entries of [_tokenizers] in the
  order of [Object.keys]; an object has one value for each key. *)
Definition _killWorker (s : t) : t :=
  let s := foldl (fun s entry => tokenizer_dispose entry.2 s) s (_tokenizers s) in
  let s := set_tokenizers [] s in
  let s :=
    match _worker s with
    | Some worker => set_worker None (emit [worker_dispose worker] s)
    | None => s
    end in
  set_workerProxy None s.

(** Lines 166-173, the callback of [worker.getProxy().then]. *)
Definition getProxy_then (worker : WorkerId) (s : t) : t :=
  if bool_decide (_worker s ≠ Some worker) then s
  else
    let proxy := worker in
    let s := set_workerProxy (Some proxy) s in
    forEach_onModelAdded s.

(** Lines 177-179. *)
Definition _onDidDisposeGrammarFactory (s : t) : t := _killWorker s.

(** Lines 105-121, the constructor, for a model service that already knows
  [models]. *)
Definition new (models : list ITextModel.t) : t :=
  let s :=
    {| _worker := None; _workerProxy := None; _tokenizers := [];
       _modelService := models; objects := []; log := [];
       nextWorker := 0;
       nextModel := S (foldr max 0 (ITextModel.id <$> models));
       pending := [] |} in
  forEach_onModelAdded s.

End TextMateService.

(** ** The host event loop *)

(** Modelled from the spec: the collaborators of the manager
  ([IModelService], the grammar factory of [AbstractTextMateService], the
  promise of [getProxy()]) are declared outside this file. What reaches
  the manager from them, one handler at a time: the buffer registry adds or
  removes a buffer, a buffer fires a notification, a grammar set is created
  or disposed, the promise of [getProxy()] resolves. *)
Inductive HostEvent :=
| modelAdded (model : ITextModel.t)
| modelRemoved (uri : string)
| modelEvent (uri : string) (ev : ModelEvent)
| grammarFactoryCreated (grammarDefinitions : list IValidGrammarDefinition.t)
| grammarFactoryDisposed
| proxyResolved (worker : WorkerId).

Definition getModel (uri : string) (models : list ITextModel.t) : option ITextModel.t :=
  List.find (fun m => String.eqb (ITextModel.uri m) uri) models.

Definition with_id (i : nat) (m : ITextModel.t) : ITextModel.t :=
  ITextModel.mk i (ITextModel.uri m)
    (ITextModel.getVersionId m) (ITextModel.getLinesContent m)
    (ITextModel.getEOL m) (ITextModel.getLanguageIdentifier m)
    (ITextModel.isAttachedToEditor m) (ITextModel.isTooLargeForSyncing m).

(** Modelled from the spec: a notification of buffer [m] runs the
  listeners registered on that object, in the order of their registration;
  each synchroniser sends to its own proxy. *)
Fixpoint notify (ev : ModelEvent) (m : ITextModel.t)
    (objects : list ModelWorkerTextMateTokenizer.t)
    : list ModelWorkerTextMateTokenizer.t * list Effect :=
  match objects with
  | [] => ([], [])
  | self :: rest =>
      let (self', calls) :=
        if Nat.eqb (ITextModel.ref_id (ModelWorkerTextMateTokenizer._model self))
                   (ITextModel.id m)
        then fire ev m self
        else ModelWorkerTextMateTokenizer.ret self in
      let (rest', effects) := notify ev m rest in
      (self' :: rest',
       (call (ModelWorkerTextMateTokenizer._worker self) <$> calls) ++ effects)
  end.

(** Line 24. *)
Definition RUN_TEXTMATE_IN_WORKER : bool := false.

(** The manager's reaction to the grammar factory depends on the module
  level toggle of line 24. It is a parameter here, so that both branches
  of line 154 are covered; the source is the instance at
  [RUN_TEXTMATE_IN_WORKER]. *)
Section Toggle.

Variable runTextMateInWorker : bool.

(** Lines 151-175. [createWebWorker] yields a worker with a fresh identity;
  the callback of [getProxy().then] is left pending. *)
Definition _onDidCreateGrammarFactory
    (grammarDefinitions : list IValidGrammarDefinition.t)
    (s : TextMateService.t) : TextMateService.t :=
  let s := TextMateService._killWorker s in
  if runTextMateInWorker then
    let worker := TextMateService.nextWorker s in
    let s :=
      TextMateService.mk
        (TextMateService._worker s) (TextMateService._workerProxy s)
        (TextMateService._tokenizers s) (TextMateService._modelService s)
        (TextMateService.objects s)
        (TextMateService.log s ++ [createWebWorker worker grammarDefinitions])
        (S worker) (TextMateService.nextModel s) (TextMateService.pending s) in
    let s := TextMateService.set_worker (Some worker) s in
    TextMateService.set_pending (TextMateService.pending s ++ [worker]) s
  else s.

(** Modelled from the spec: one turn of the event loop. The buffer
  registry keeps one buffer for each URI, gives every buffer it creates a
  fresh identity and notifies the manager of additions and removals; a
  notification of a buffer reaches the listeners on that buffer; a promise
  resolves once. The handlers that run are those of the source. *)
Definition step (s : TextMateService.t) (ev : HostEvent) : TextMateService.t :=
  match ev with
  | modelAdded model =>
      if bool_decide (ITextModel.uri model ∈ ITextModel.uri <$> TextMateService._modelService s)
      then s
      else
        let model := with_id (TextMateService.nextModel s) model in
        let s :=
          TextMateService.mk
            (TextMateService._worker s) (TextMateService._workerProxy s)
            (TextMateService._tokenizers s)
            (TextMateService._modelService s ++ [model])
            (TextMateService.objects s) (TextMateService.log s)
            (TextMateService.nextWorker s) (S (TextMateService.nextModel s))
            (TextMateService.pending s) in
        TextMateService._onModelAdded model s
  | modelRemoved uri =>
      match getModel uri (TextMateService._modelService s) with
      | Some model =>
          let models :=
            List.filter (fun m => negb (String.eqb (ITextModel.uri m) uri))
                        (TextMateService._modelService s) in
          TextMateService._onModelRemoved model
            (TextMateService.set_modelService models s)
      | None => s
      end
  | modelEvent uri ev =>
      match getModel uri (TextMateService._modelService s) with
      | Some model =>
          let model' := mutate ev model in
          let models :=
            (fun m => if String.eqb (ITextModel.uri m) uri then mutate ev m else m)
              <$> TextMateService._modelService s in
          let (objects', effects) := notify ev model' (TextMateService.objects s) in
          TextMateService.emit effects
            (TextMateService.set_objects objects'
               (TextMateService.set_modelService models s))
      | None => s
      end
  | grammarFactoryCreated grammarDefinitions =>
      _onDidCreateGrammarFactory grammarDefinitions s
  | grammarFactoryDisposed =>
      TextMateService._onDidDisposeGrammarFactory s
  | proxyResolved worker =>
      if bool_decide (worker ∈ TextMateService.pending s)
      then
        TextMateService.getProxy_then worker
          (TextMateService.set_pending
             (List.filter (fun w => negb (Nat.eqb w worker)) (TextMateService.pending s)) s)
      else s
  end.

Definition run (s : TextMateService.t) (evs : list HostEvent) : TextMateService.t :=
  foldl step s evs.

End Toggle.

(** ** Vocabulary of the properties *)

(** The URI a call on the worker is about. *)
Definition call_uri (c : TextMateWorker) : string :=
  match c with
  | acceptNewModel data => IRawModelData.uri data
  | acceptModelChanged strURL _ => strURL
  | acceptModelLanguageChanged strURL _ => strURL
  | acceptRemovedModel strURL => strURL
  end.

(** Causal order of the calls about one URI, in the words of the
  specification: an edit or a language change is sent only while the worker
  holds a mirror of the buffer, that is after a snapshot and before the
  removal that follows it. [mirrored] tells whether the worker holds a
  mirror before [calls]. *)
Fixpoint causal_from (mirrored : bool) (uri : string) (calls : list TextMateWorker) : bool :=
  match calls with
  | [] => true
  | c :: rest =>
      if String.eqb (call_uri c) uri then
        match c with
        | acceptNewModel _ => causal_from true uri rest
        | acceptRemovedModel _ => causal_from false uri rest
        | acceptModelChanged _ _ | acceptModelLanguageChanged _ _ =>
            mirrored && causal_from mirrored uri rest
        end
      else causal_from mirrored uri rest
  end.

Definition causal (uri : string) (calls : list TextMateWorker) : bool :=
  causal_from false uri calls.

(** The snapshot [_beginSync] sends for buffer [m]. *)
Definition snapshot (m : ITextModel.t) : TextMateWorker :=
  acceptNewModel
    {| IRawModelData.uri := ITextModel.uri m;
       IRawModelData.versionId := ITextModel.getVersionId m;
       IRawModelData.lines := ITextModel.getLinesContent m;
       IRawModelData.EOL := ITextModel.getEOL m;
       IRawModelData.languageId :=
         LanguageIdentifier.id (ITextModel.getLanguageIdentifier m) |}.

(** Edit batches as notifications: the event and the lines it leaves. *)
Definition contentChanges (batches : list (IModelContentChangedEvent.t * list string))
    : list ModelEvent :=
  (fun b => changeContent b.1 b.2) <$> batches.

(** A notification that attaches the buffer. *)
Definition attaches (ev : ModelEvent) : bool :=
  match ev with
  | changeAttached b => b
  | _ => false
  end.

(** Buffers that [_onModelAdded] does not turn away for their size. *)
Definition syncable (m : ITextModel.t) : bool :=
  negb (ITextModel.isTooLargeForSyncing m).

(** Eligibility in the words of the specification: attached and not
  oversized. *)
Definition attached_and_syncable (m : ITextModel.t) : bool :=
  ITextModel.isAttachedToEditor m && negb (ITextModel.isTooLargeForSyncing m).

(** The entries of the map refer to stored synchronisers, each to its own. *)
Definition registered (s : TextMateService.t) : Prop :=
  Forall (fun entry => entry.2 < length (TextMateService.objects s))
         (TextMateService._tokenizers s)
  /\ NoDup (TextMateService._tokenizers s).*2.

(** Every synchroniser that still listens to its buffer is registered in
  the map. *)
Definition covered (s : TextMateService.t) : Prop :=
  forall i self l,
    TextMateService.objects s !! i = Some self ->
    ModelWorkerTextMateTokenizer.listens l self = true ->
    i ∈ (TextMateService._tokenizers s).*2.

(** The state of the manager between two turns of the event loop: the
  model service holds one buffer for each URI; the map has an entry only
  for URIs of known buffers, and none while no proxy is set; a worker whose
  promise is pending has no proxy yet; every synchroniser that still
  listens is registered. *)
Definition tidy (s : TextMateService.t) : Prop :=
  NoDup (ITextModel.uri <$> TextMateService._modelService s)
  /\ NoDup (JsObject.keys (TextMateService._tokenizers s))
  /\ (forall key, key ∈ JsObject.keys (TextMateService._tokenizers s) ->
        key ∈ ITextModel.uri <$> TextMateService._modelService s)
  /\ (TextMateService._workerProxy s = None -> TextMateService._tokenizers s = [])
  /\ (forall worker, worker ∈ TextMateService.pending s ->
        TextMateService._worker s = Some worker ->
        TextMateService._workerProxy s = None)
  /\ covered s.

(** The removal [dispose] sends for the synchroniser at position [i]. *)
Definition removal (objects : list ModelWorkerTextMateTokenizer.t) (i : nat) : list Effect :=
  match objects !! i with
  | Some self =>
      [call (ModelWorkerTextMateTokenizer._worker self)
            (acceptRemovedModel (ModelWorkerTextMateTokenizer.model_uri self))]
  | None => []
  end.

(** Nothing in the manager is about URI [uri]: no stored synchroniser, no
  entry of the map, no call on a worker. *)
Definition quiet (uri : string) (s : TextMateService.t) : Prop :=
  (forall self, self ∈ TextMateService.objects s ->
     ModelWorkerTextMateTokenizer.model_uri self <> uri)
  /\ (uri ∉ JsObject.keys (TextMateService._tokenizers s))
  /\ (forall proxy c, call proxy c ∈ TextMateService.log s -> call_uri c <> uri).

(** Every buffer of [models] with URI [uri] is oversized. *)
Definition only_oversized (uri : string) (models : list ITextModel.t) : Prop :=
  forall m, m ∈ models -> ITextModel.uri m = uri ->
    ITextModel.isTooLargeForSyncing m = true.

(** The buffers the model service is asked to add in a run of events. *)
Definition added_models (evs : list HostEvent) : list ITextModel.t :=
  flat_map (fun ev => match ev with modelAdded model => [model] | _ => [] end) evs.

(** The calls of the constructor on buffer [m]: the snapshot, if the buffer
  is attached. *)
Definition constructor_calls (m : ITextModel.t) : list TextMateWorker :=
  if ITextModel.isAttachedToEditor m then [snapshot m] else [].

(** Language changes as notifications. *)
Definition languageChanges (ls : list LanguageIdentifier.t) : list ModelEvent :=
  changeLanguage <$> ls.

Definition is_snapshot (c : TextMateWorker) : bool :=
  match c with
  | acceptNewModel _ => true
  | _ => false
  end.

(** Every entry of the map is filed under the URI of the buffer of the
  synchroniser it refers to. *)
Definition keyed (s : TextMateService.t) : Prop :=
  forall key i, (key, i) ∈ TextMateService._tokenizers s ->
    exists self, TextMateService.objects s !! i = Some self
      /\ ModelWorkerTextMateTokenizer.model_uri self = key.

(** The proxy, if there is one, is the proxy of the live worker, and the
  synchronisers of the map send to it. *)
Definition current (s : TextMateService.t) : Prop :=
  (forall proxy, TextMateService._workerProxy s = Some proxy ->
     TextMateService._worker s = Some proxy)
  /\ (forall key i self,
        (key, i) ∈ TextMateService._tokenizers s ->
        TextMateService.objects s !! i = Some self ->
        TextMateService._workerProxy s = Some (ModelWorkerTextMateTokenizer._worker self)).

(** The manager has no worker, no proxy, no synchroniser, and has done
  nothing to the outside. *)
Definition idle (s : TextMateService.t) : Prop :=
  TextMateService._worker s = None /\ TextMateService._workerProxy s = None
  /\ TextMateService._tokenizers s = [] /\ TextMateService.objects s = []
  /\ TextMateService.log s = [] /\ TextMateService.pending s = [].

(** The events of the buffer registry and of the buffers, and the events of
  the grammar factory. *)
Definition buffer_event (ev : HostEvent) : bool :=
  match ev with
  | modelAdded _ | modelRemoved _ | modelEvent _ _ => true
  | _ => false
  end.

Definition grammar_event (ev : HostEvent) : bool :=
  match ev with
  | grammarFactoryCreated _ | grammarFactoryDisposed => true
  | _ => false
  end.

(** No proxy, no entry in the map, and no synchroniser that listens. *)
Definition dormant (s : TextMateService.t) : Prop :=
  TextMateService._workerProxy s = None
  /\ TextMateService._tokenizers s = []
  /\ (forall i self l,
        TextMateService.objects s !! i = Some self ->
        ModelWorkerTextMateTokenizer.listens l self = false).

(** Modelled from the spec: [IConfigurationService] is declared in
  [vs/platform/configuration/common/configuration]; the configuration
  exposes a single boolean toggle for worker-offload mode. *)
Module IConfigurationService.
Record t := mk { workerOffload : bool }.
End IConfigurationService.

(** Lines 105-121, the constructor with the configuration service it is
  given: the service is handed to the base class (line 114) and is neither
  read nor kept by this class. *)
Definition TextMateService_constructor
    (configurationService : IConfigurationService.t)
    (models : list ITextModel.t) : TextMateService.t :=
  TextMateService.new models.

(** The spawn on a grammar set created, in the words of the
  specification: a manager constructed with a configuration spawns a
  worker when worker-offload mode is enabled by that configuration, and
  only then. The handler is the source's, at the toggle of line 24. *)
Definition spawns_as_configured
    (configurationService : IConfigurationService.t)
    (models : list ITextModel.t)
    (grammarDefinitions : list IValidGrammarDefinition.t) : Prop :=
  let s :=
    _onDidCreateGrammarFactory RUN_TEXTMATE_IN_WORKER grammarDefinitions
      (TextMateService_constructor configurationService models) in
  (exists worker, createWebWorker worker grammarDefinitions ∈ TextMateService.log s)
  <-> IConfigurationService.workerOffload configurationService = true.

(** The identity the next worker gets has not been given to the live
  worker. *)
Definition fresh_ids (s : TextMateService.t) : Prop :=
  forall worker, TextMateService._worker s = Some worker ->
    worker < TextMateService.nextWorker s.

(** ** Sample data *)

(** A configuration that enables worker-offload mode. *)
Definition sample_configuration : IConfigurationService.t :=
  IConfigurationService.mk true.


(** The line feed. *)
Definition LF : string := String (Ascii.ascii_of_nat 10) EmptyString.

Definition sample_language : LanguageIdentifier.t :=
  LanguageIdentifier.mk "typescript" 3.

Definition sample_model : ITextModel.t :=
  ITextModel.mk 0 "file:///a.ts" 1 ["let x = 1;"] LF sample_language true false.

Definition sample_detached : ITextModel.t :=
  ITextModel.mk 1 "file:///b.ts" 4 ["b"] LF sample_language false false.

Definition sample_oversized : ITextModel.t :=
  ITextModel.mk 2 "file:///big.ts" 1 ["big"] LF sample_language true true.

Definition sample_added : ITextModel.t :=
  ITextModel.mk 5 "file:///c.ts" 1 ["c"] LF sample_language false false.

Definition sample_edit : IModelContentChangedEvent.t :=
  IModelContentChangedEvent.mk
    [IModelContentChange.mk (Range.mk 1 1 1 1) "a"] LF 2.

Definition sample_edit' : IModelContentChangedEvent.t :=
  IModelContentChangedEvent.mk
    [IModelContentChange.mk (Range.mk 1 2 1 2) "b"] LF 3.

(** A manager whose worker 0 is live and resolved, with a synchroniser for
  each of two buffers. *)
Definition sample_service : TextMateService.t :=
  run true (TextMateService.new [sample_model; sample_detached])
    [grammarFactoryCreated []; proxyResolved 0].

(** A manager whose worker 1 is live while the promise of worker 0, killed
  meanwhile, is still to resolve. *)
Definition sample_respawned : TextMateService.t :=
  run true (TextMateService.new [sample_model; sample_detached])
    [grammarFactoryCreated []; grammarFactoryCreated []; proxyResolved 1].

(** A manager whose worker 0 is live and not yet resolved. *)
Definition sample_spawned : TextMateService.t :=
  run true (TextMateService.new [sample_detached; sample_oversized])
    [grammarFactoryCreated []].

(** * Properties *)

(** ** The synchroniser *)

Section Synchroniser.

Import ModelWorkerTextMateTokenizer.

Implicit Types (self : ModelWorkerTextMateTokenizer.t) (m : ITextModel.t)
  (ev : ModelEvent) (s : Session.t).

Lemma new_unfold worker m :
  new worker m =
    ({| _super := Disposable.mk [onDidChangeAttached; onDidChangeContent; onDidChangeLanguage] false;
        _worker := worker;
        _model := ITextModel.ref_of m;
        _isSynced := ITextModel.isAttachedToEditor m |},
     if ITextModel.isAttachedToEditor m then [snapshot m] else []).
Proof.
  unfold new, _onDidChangeAttached, andThen; cbn.
  destruct (ITextModel.isAttachedToEditor m); reflexivity.
Qed.

Lemma new_listens worker m l : listens l (new worker m).1 = true.
Proof. rewrite new_unfold. destruct l; reflexivity. Qed.

Lemma start_unfold worker m :
  Session.start worker m =
    {| Session.model := m;
       Session.tokenizer := (new worker m).1;
       Session.sent := (new worker m).2 |}.
Proof. unfold Session.start. destruct (new worker m); reflexivity. Qed.

Lemma run_app s evs evs' :
  Session.run s (evs ++ evs') = Session.run (Session.run s evs) evs'.
Proof. apply foldl_app. Qed.

Lemma run_snoc s evs ev :
  Session.run s (evs ++ [ev]) = Session.step (Session.run s evs) ev.
Proof. apply run_app. Qed.

(** Firing leaves everything but [_isSynced] alone. *)
Lemma fire_frame ev m self :
  _super (fire ev m self).1 = _super self
  /\ _worker (fire ev m self).1 = _worker self
  /\ _model (fire ev m self).1 = _model self.
Proof.
  unfold fire. destruct (listens (emitter ev) self); [|done].
  destruct ev; cbn;
    unfold _onDidChangeAttached, _onDidChangeContent, _onDidChangeLanguage;
    repeat match goal with |- context [if ?b then _ else _] => destruct b end;
    done.
Qed.

(** Once set, the flag stays set: nothing in the class clears it. *)
Lemma fire_keeps_synced ev m self :
  _isSynced self = true -> _isSynced (fire ev m self).1 = true.
Proof.
  intros H. unfold fire. destruct (listens (emitter ev) self); [|done].
  destruct ev; cbn;
    unfold _onDidChangeAttached, _onDidChangeContent, _onDidChangeLanguage;
    rewrite H; cbn;
    repeat match goal with |- context [if ?b then _ else _] => destruct b end;
    done.
Qed.

End Synchroniser.

Section SynchroniserClaims.

Import ModelWorkerTextMateTokenizer.

Implicit Types (self : ModelWorkerTextMateTokenizer.t) (m : ITextModel.t)
  (ev : ModelEvent) (s : Session.t).

Lemma mutate_uri ev m : ITextModel.uri (mutate ev m) = ITextModel.uri m.
Proof. destruct ev; reflexivity. Qed.

Lemma mutate_tooLarge ev m :
  ITextModel.isTooLargeForSyncing (mutate ev m) = ITextModel.isTooLargeForSyncing m.
Proof. destruct ev; reflexivity. Qed.

Lemma step_model s ev : Session.model (Session.step s ev) = mutate ev (Session.model s).
Proof.
  unfold Session.step.
  destruct (fire ev (mutate ev (Session.model s)) (Session.tokenizer s)); reflexivity.
Qed.

Lemma run_model_uri s evs :
  ITextModel.uri (Session.model (Session.run s evs)) = ITextModel.uri (Session.model s).
Proof.
  induction evs as [|ev evs IH] using rev_ind; [done|].
  by rewrite run_snoc, step_model, mutate_uri.
Qed.

Lemma step_unfold s ev :
  Session.step s ev =
    {| Session.model := mutate ev (Session.model s);
       Session.tokenizer := (fire ev (mutate ev (Session.model s)) (Session.tokenizer s)).1;
       Session.sent :=
         Session.sent s ++ (fire ev (mutate ev (Session.model s)) (Session.tokenizer s)).2 |}.
Proof.
  unfold Session.step.
  destruct (fire ev (mutate ev (Session.model s)) (Session.tokenizer s)); reflexivity.
Qed.

(** While the flag is clear, a notification sends nothing and leaves the
  flag clear, unless it is an attach notification of an attached buffer. *)
Lemma fire_unsynced ev m self :
  _isSynced self = false ->
  (emitter ev = onDidChangeAttached -> ITextModel.isAttachedToEditor m = false) ->
  fire ev m self = (self, []).
Proof.
  intros Hs Ha. unfold fire. destruct (listens (emitter ev) self); [|done].
  destruct ev as [b| |]; cbn;
    unfold _onDidChangeAttached, _onDidChangeContent, _onDidChangeLanguage, ret;
    rewrite Hs; cbn; try done.
  by rewrite Ha.
Qed.

Lemma run_unsynced s evs :
  _isSynced (Session.tokenizer s) = false ->
  forallb (fun ev => negb (attaches ev)) evs = true ->
  Session.tokenizer (Session.run s evs) = Session.tokenizer s
  /\ Session.sent (Session.run s evs) = Session.sent s.
Proof.
  intros Hs. induction evs as [|ev evs IH] using rev_ind; [done|].
  rewrite forallb_app; cbn. rewrite andb_true_r.
  intros [Hevs Hev]%andb_true_iff. destruct (IH Hevs) as [IHt IHs].
  rewrite run_snoc, step_unfold; cbn.
  rewrite fire_unsynced; cbn.
  - by rewrite app_nil_r.
  - by rewrite IHt.
  - destruct ev as [[]| |]; done.
Qed.

(** A run of content changes only: the synchroniser is left as it was and
  every batch is forwarded or none is, as the flag says. *)
Lemma run_contentChanges s batches :
  listens onDidChangeContent (Session.tokenizer s) = true ->
  Session.tokenizer (Session.run s (contentChanges batches)) = Session.tokenizer s
  /\ Session.sent (Session.run s (contentChanges batches)) =
      Session.sent s ++
        (if _isSynced (Session.tokenizer s)
         then (fun b => acceptModelChanged (model_uri (Session.tokenizer s)) b.1) <$> batches
         else []).
Proof.
  intros Hl. induction batches as [|b batches IH] using rev_ind.
  - cbn. by destruct (_isSynced _); rewrite app_nil_r.
  - unfold contentChanges. rewrite fmap_app. cbn [fmap list_fmap].
    fold (contentChanges batches). rewrite run_snoc, step_unfold; cbn.
    destruct IH as [-> ->].
    unfold fire; cbn. rewrite Hl. unfold _onDidChangeContent.
    destruct (_isSynced (Session.tokenizer s)); cbn.
    + split; [done|]. by rewrite fmap_app, app_assoc.
    + split; [done|]. by rewrite !app_nil_r.
Qed.

Lemma run_keeps_synced s evs :
  _isSynced (Session.tokenizer s) = true ->
  _isSynced (Session.tokenizer (Session.run s evs)) = true.
Proof.
  intros H. induction evs as [|ev evs IH] using rev_ind; [done|].
  rewrite run_snoc, step_unfold; cbn. by apply fire_keeps_synced.
Qed.

(** C1 (the code departs from the claim): a synchroniser built on an
  attached buffer has its flag set; when the buffer is detached the
  removal is sent but [_endSync] does not clear the flag, so the flag is
  set while the buffer is not attached; whatever notifications follow the
  construction, the flag stays set. *)
Theorem C1_detach_leaves_synced_flag worker m :
  let s0 := Session.start worker (mutate (changeAttached true) m) in
  let s1 := Session.step s0 (changeAttached false) in
  _isSynced (Session.tokenizer s0) = true
  /\ ITextModel.isAttachedToEditor (Session.model s1) = false
  /\ _isSynced (Session.tokenizer s1) = true
  /\ forall evs, _isSynced (Session.tokenizer (Session.run s0 evs)) = true.
Proof.
  cbv zeta. split_and!; try reflexivity.
  intros evs. by apply run_keeps_synced.
Qed.

(** C2 (the code departs from the claim): for a synced buffer, detaching
  sends the removal; a content change while the buffer stays detached is
  still forwarded to the worker; attaching the buffer again sends nothing,
  in particular no snapshot. *)
Theorem C2_detached_edit_forwarded_no_resync worker m e lines :
  let s0 := Session.start worker (mutate (changeAttached true) m) in
  let s1 := Session.step s0 (changeAttached false) in
  let s2 := Session.step s1 (changeContent e lines) in
  let s3 := Session.step s2 (changeAttached true) in
  Session.sent s1 = Session.sent s0 ++ [acceptRemovedModel (ITextModel.uri m)]
  /\ Session.sent s2 = Session.sent s1 ++ [acceptModelChanged (ITextModel.uri m) e]
  /\ Session.sent s3 = Session.sent s2.
Proof. repeat split; reflexivity. Qed.

(** C3: content changes delivered while the flag [_isSynced] is clear send
  nothing to the worker; delivered while it is set, each batch sends one
  [acceptModelChanged] carrying the event as it is, in the order of the
  batches; the synchroniser itself is left unchanged. *)
Theorem C3_content_changes_forwarded_iff_synced s batches :
  listens onDidChangeContent (Session.tokenizer s) = true ->
  let s' := Session.run s (contentChanges batches) in
  Session.tokenizer s' = Session.tokenizer s
  /\ (_isSynced (Session.tokenizer s) = false -> Session.sent s' = Session.sent s)
  /\ (_isSynced (Session.tokenizer s) = true ->
      Session.sent s' =
        Session.sent s ++
          ((fun b => acceptModelChanged (model_uri (Session.tokenizer s)) b.1) <$> batches)).
Proof.
  intros Hl. destruct (run_contentChanges s batches Hl) as [Ht Hs].
  cbn. split; [done|]. rewrite Hs.
  split; intros ->; [by rewrite app_nil_r | done].
Qed.

Lemma C3_witness :
  Session.sent
    (Session.run (Session.start 0 sample_model)
       (contentChanges [(sample_edit, ["alet x = 1;"]); (sample_edit', ["ablet x = 1;"])]))
  = [snapshot sample_model;
     acceptModelChanged "file:///a.ts" sample_edit;
     acceptModelChanged "file:///a.ts" sample_edit']
  /\ Session.sent
       (Session.run (Session.start 0 sample_detached)
          (contentChanges [(sample_edit, ["ab"])]))
     = [].
Proof.
  split.
  - apply (C3_content_changes_forwarded_iff_synced (Session.start 0 sample_model)
             [(sample_edit, ["alet x = 1;"]); (sample_edit', ["ablet x = 1;"])]);
      reflexivity.
  - apply (C3_content_changes_forwarded_iff_synced (Session.start 0 sample_detached)
             [(sample_edit, ["ab"])]);
      reflexivity.
Defined.

(** C4 (the code departs from the claim): after the snapshot and the
  removal that a detach sends, a content change is forwarded although no
  new snapshot was sent; the calls about the buffer's URI are not in
  causal order. *)
Theorem C4_edit_sent_after_removal worker m e lines :
  let s := Session.run (Session.start worker (mutate (changeAttached true) m))
             [changeAttached false; changeContent e lines] in
  Session.sent s =
    [snapshot (mutate (changeAttached true) m);
     acceptRemovedModel (ITextModel.uri m);
     acceptModelChanged (ITextModel.uri m) e]
  /\ causal (ITextModel.uri m) (Session.sent s) = false.
Proof.
  intros s.
  assert (Session.sent s =
    [snapshot (mutate (changeAttached true) m);
     acceptRemovedModel (ITextModel.uri m);
     acceptModelChanged (ITextModel.uri m) e]) as -> by reflexivity.
  split; [reflexivity|].
  unfold causal; cbn. by rewrite String.eqb_refl.
Qed.

(** C7 (the claim as stated fails): disposal is not idempotent; a second
  disposal of a synchroniser sends a second removal, so disposing twice is
  not the same as disposing once. *)
Lemma C7_second_dispose_sends_again :
  Session.dispose (Session.dispose (Session.start 0 sample_model))
  <> Session.dispose (Session.start 0 sample_model).
Proof. intros H. discriminate (f_equal (fun s => length (Session.sent s)) H). Qed.

(** C7 (amended): disposing a synchroniser releases all its listeners and
  then sends one removal for its buffer's URI, whatever the flag
  [_isSynced]; a disposed synchroniser no longer reacts to notifications,
  and releasing the listeners again changes nothing; but every invocation
  of [_endSync] or of disposal, repeated ones included, sends one more
  removal. *)
Theorem C7_dispose_sends_removal_each_time self :
  (dispose self).2 = [acceptRemovedModel (model_uri self)]
  /\ (forall l, listens l (dispose self).1 = false)
  /\ (forall ev m, fire ev m (dispose self).1 = ((dispose self).1, []))
  /\ super_dispose (super_dispose self) = super_dispose self
  /\ _super (dispose (dispose self).1).1 = _super (dispose self).1
  /\ (dispose (dispose self).1).2 = [acceptRemovedModel (model_uri self)]
  /\ (_endSync self).2 = [acceptRemovedModel (model_uri self)]
  /\ (_endSync (_endSync self).1).2 = [acceptRemovedModel (model_uri self)].
Proof.
  split; [reflexivity|].
  split; [intros l; by destruct l|].
  split; [intros ev m; unfold fire; by destruct ev|].
  repeat split; reflexivity.
Qed.

(** C10: the constructor subscribes and looks at the attach state at once.
  Built on an attached buffer it sends the snapshot of the buffer during
  construction and sets the flag; built on a detached buffer it sends
  nothing and leaves the flag clear, nothing is sent as long as no
  notification attaches the buffer, and the notification that attaches it
  sends the snapshot of the buffer as it is then. *)
Theorem C10_constructor_evaluates_attach_state worker m :
  (forall l, listens l (new worker m).1 = true)
  /\ (ITextModel.isAttachedToEditor m = true ->
      (new worker m).2 = [snapshot m] /\ _isSynced (new worker m).1 = true)
  /\ (ITextModel.isAttachedToEditor m = false ->
      (new worker m).2 = [] /\ _isSynced (new worker m).1 = false
      /\ forall evs, forallb (fun ev => negb (attaches ev)) evs = true ->
           let s := Session.run (Session.start worker m) evs in
           let s' := Session.step s (changeAttached true) in
           Session.sent s = []
           /\ Session.sent s' = [snapshot (Session.model s')]
           /\ _isSynced (Session.tokenizer s') = true).
Proof.
  split; [intros l; apply new_listens|].
  rewrite new_unfold; cbn [fst snd _isSynced].
  split; intros Ha; rewrite Ha; [done|].
  do 2 (split; [done|]). intros evs Hevs.
  set (s := Session.run (Session.start worker m) evs).
  set (s' := Session.step s (changeAttached true)).
  assert (Session.sent (Session.start worker m) = []) as H0
    by (rewrite start_unfold, new_unfold, Ha; reflexivity).
  assert (Session.tokenizer (Session.start worker m) =
          {| _super := Disposable.mk [onDidChangeAttached; onDidChangeContent; onDidChangeLanguage] false;
             _worker := worker; _model := ITextModel.ref_of m; _isSynced := false |}) as Ht
    by (rewrite start_unfold, new_unfold, Ha; reflexivity).
  destruct (run_unsynced (Session.start worker m) evs) as [Et Es];
    [by rewrite Ht | done |].
  fold s in Et, Es. rewrite Es, H0. split; [done|].
  pose proof (run_model_uri (Session.start worker m) evs) as Hu.
  fold s in Hu. rewrite start_unfold in Hu; cbn in Hu.
  subst s'. rewrite step_unfold; cbn. rewrite Es, H0, Et, Ht; cbn.
  unfold snapshot, model_uri; cbn. by rewrite Hu.
Qed.

Lemma C10_witness :
  (new 0 sample_model).2 = [snapshot sample_model]
  /\ Session.sent
       (Session.run (Session.start 0 sample_detached)
          [changeContent sample_edit ["ab"]; changeAttached false]) = [].
Proof.
  split.
  - apply (C10_constructor_evaluates_attach_state 0 sample_model). reflexivity.
  - apply (C10_constructor_evaluates_attach_state 0 sample_detached);
      reflexivity.
Defined.

End SynchroniserClaims.

(** ** The manager *)

Section Manager.

Import TextMateService.

Implicit Types (s : TextMateService.t) (m model : ITextModel.t)
  (o : JsObject.t) (key : string) (i : nat).

(** *** The map *)

Lemma JsObject_get_set_eq key v o : JsObject.get key (JsObject.set key v o) = Some v.
Proof.
  induction o as [|[k x] o IH]; cbn.
  - by rewrite String.eqb_refl.
  - destruct (String.eqb k key) eqn:E; cbn; by rewrite E.
Qed.

Lemma JsObject_get_set_ne key key' v o :
  key <> key' -> JsObject.get key' (JsObject.set key v o) = JsObject.get key' o.
Proof.
  intros Hne. induction o as [|[k x] o IH]; cbn.
  - destruct (String.eqb_spec key key'); done.
  - destruct (String.eqb_spec k key) as [->|]; cbn.
    + destruct (String.eqb_spec key key'); done.
    + by rewrite IH.
Qed.

Lemma JsObject_keys_set key v o k :
  k ∈ JsObject.keys (JsObject.set key v o) <-> k = key \/ k ∈ JsObject.keys o.
Proof.
  unfold JsObject.keys. induction o as [|[k0 x] o IH]; cbn.
  - rewrite list_elem_of_singleton, elem_of_nil. tauto.
  - destruct (String.eqb_spec k0 key) as [->|]; cbn;
      rewrite !elem_of_cons; [tauto|]. rewrite IH. tauto.
Qed.

Lemma JsObject_get_None key o :
  JsObject.get key o = None <-> key ∉ JsObject.keys o.
Proof.
  unfold JsObject.keys. induction o as [|[k x] o IH]; cbn.
  - split; [intros _; apply not_elem_of_nil | done].
  - rewrite not_elem_of_cons.
    destruct (String.eqb_spec k key) as [->|]; [split; [done|tauto]|].
    rewrite IH. split; [intros ?; split; congruence | tauto].
Qed.

Lemma JsObject_values_set key v o x :
  x ∈ (JsObject.set key v o).*2 -> x = v \/ x ∈ o.*2.
Proof.
  induction o as [|[k0 y] o IH]; cbn.
  - rewrite list_elem_of_singleton. tauto.
  - destruct (String.eqb k0 key); cbn; rewrite !elem_of_cons; tauto.
Qed.

Lemma JsObject_values_delete key o x :
  x ∈ (JsObject.delete key o).*2 -> x ∈ o.*2.
Proof.
  induction o as [|[k0 y] o IH]; cbn; [done|].
  destruct (String.eqb k0 key); cbn; rewrite !elem_of_cons; tauto.
Qed.

Lemma JsObject_NoDup_set key v o :
  v ∉ o.*2 -> NoDup o.*2 -> NoDup (JsObject.set key v o).*2.
Proof.
  induction o as [|[k0 y] o IH]; cbn.
  - intros _ _. apply NoDup_singleton.
  - rewrite not_elem_of_cons, NoDup_cons. intros [Hne Hv] [Hy Ho].
    destruct (String.eqb k0 key); cbn; rewrite NoDup_cons; [done|].
    split; [|by apply IH].
    intros [->| ?]%JsObject_values_set; done.
Qed.

Lemma JsObject_NoDup_delete key o :
  NoDup o.*2 -> NoDup (JsObject.delete key o).*2.
Proof.
  induction o as [|[k0 y] o IH]; cbn; [done|].
  rewrite NoDup_cons. intros [Hy Ho].
  destruct (String.eqb k0 key); cbn; [by apply IH|].
  rewrite NoDup_cons. split; [|by apply IH].
  intros ?%JsObject_values_delete; done.
Qed.

(** *** Disposal of stored synchronisers *)

Lemma list_insert_as_alter {A} (f : A -> A) (l : list A) i x :
  l !! i = Some x -> <[i := f x]> l = alter f i l.
Proof.
  intros H. apply list_eq; intros j. destruct (decide (i = j)) as [<-|Hne].
  - rewrite list_lookup_insert_eq by (by eapply lookup_lt_Some).
    by rewrite list_lookup_alter_eq, H.
  - by rewrite list_lookup_insert_ne, list_lookup_alter_ne.
Qed.

Lemma list_alter_None {A} (f : A -> A) (l : list A) i :
  l !! i = None -> alter f i l = l.
Proof.
  intros H. apply list_eq; intros j. destruct (decide (i = j)) as [<-|Hne].
  - by rewrite list_lookup_alter_eq, H.
  - by rewrite list_lookup_alter_ne.
Qed.

Lemma tokenizer_dispose_unfold i s :
  tokenizer_dispose i s =
    emit (removal (objects s) i)
      (set_objects (alter ModelWorkerTextMateTokenizer.super_dispose i (objects s)) s).
Proof.
  unfold tokenizer_dispose, removal.
  destruct (objects s !! i) as [self|] eqn:E.
  - cbn. by rewrite (list_insert_as_alter _ _ _ _ E).
  - rewrite (list_alter_None _ _ _ E).
    destruct s; unfold emit, set_objects; cbn. by rewrite app_nil_r.
Qed.

Lemma removal_alter_super_dispose os i j :
  removal (alter ModelWorkerTextMateTokenizer.super_dispose i os) j = removal os j.
Proof.
  unfold removal. destruct (decide (i = j)) as [->|Hne].
  - rewrite list_lookup_alter_eq. by destruct (os !! j).
  - by rewrite list_lookup_alter_ne.
Qed.

Lemma removals_alter_super_dispose os i (js : list nat) :
  concat (removal (alter ModelWorkerTextMateTokenizer.super_dispose i os) <$> js)
  = concat (removal os <$> js).
Proof.
  induction js as [|j js IH]; cbn; [done|].
  by rewrite removal_alter_super_dispose, IH.
Qed.

(** The loop of [_killWorker] over the entries [l]. *)
Lemma dispose_entries_spec (l : JsObject.t) s :
  let s' := foldl (fun s entry => tokenizer_dispose entry.2 s) s l in
  _worker s' = _worker s /\ _workerProxy s' = _workerProxy s
  /\ _tokenizers s' = _tokenizers s /\ _modelService s' = _modelService s
  /\ nextWorker s' = nextWorker s /\ nextModel s' = nextModel s
  /\ pending s' = pending s
  /\ log s' = log s ++ concat (removal (objects s) <$> l.*2)
  /\ length (objects s') = length (objects s)
  /\ (forall i, i ∈ l.*2 ->
        objects s' !! i = ModelWorkerTextMateTokenizer.super_dispose <$> objects s !! i)
  /\ (forall i, i ∉ l.*2 -> objects s' !! i = objects s !! i).
Proof.
  revert s. induction l as [|[k i] l IH]; intros s; cbn.
  - rewrite app_nil_r. repeat split; try done.
    intros i Hi. by apply elem_of_nil in Hi.
  - pose proof (tokenizer_dispose_unfold i s) as E.
    set (s1 := tokenizer_dispose i s) in *.
    assert (objects s1 = alter ModelWorkerTextMateTokenizer.super_dispose i (objects s))
      as Eo by (by rewrite E).
    assert (log s1 = log s ++ removal (objects s) i) as El by (by rewrite E).
    specialize (IH s1). cbn in IH.
    destruct IH as (-> & -> & -> & -> & -> & -> & -> & -> & -> & Hin & Hout).
    rewrite El, Eo, removals_alter_super_dispose, length_alter, <- app_assoc.
    split_and!; try done; try (by rewrite E).
    + intros j Hj. destruct (decide (j ∈ l.*2)) as [Hjl|Hjl].
      * rewrite (Hin j Hjl), Eo.
        destruct (decide (i = j)) as [->|Hne].
        -- rewrite list_lookup_alter_eq. by destruct (objects s !! j).
        -- by rewrite list_lookup_alter_ne.
      * rewrite (Hout j Hjl), Eo.
        apply elem_of_cons in Hj as [->|]; [|done].
        by rewrite list_lookup_alter_eq.
    + intros j [Hne Hj]%not_elem_of_cons.
      rewrite (Hout j Hj), Eo.
      by rewrite list_lookup_alter_ne.
Qed.

Lemma killWorker_spec s :
  let s' := _killWorker s in
  _worker s' = None /\ _workerProxy s' = None /\ _tokenizers s' = []
  /\ _modelService s' = _modelService s
  /\ nextWorker s' = nextWorker s /\ nextModel s' = nextModel s
  /\ pending s' = pending s
  /\ log s' =
       log s ++ concat (removal (objects s) <$> (_tokenizers s).*2)
             ++ match _worker s with Some worker => [worker_dispose worker] | None => [] end
  /\ length (objects s') = length (objects s)
  /\ (forall i, i ∈ (_tokenizers s).*2 ->
        objects s' !! i = ModelWorkerTextMateTokenizer.super_dispose <$> objects s !! i)
  /\ (forall i, i ∉ (_tokenizers s).*2 -> objects s' !! i = objects s !! i).
Proof.
  pose proof (dispose_entries_spec (_tokenizers s) s) as H. cbn in H.
  destruct H as (Hw & Hp & Ht & Hm & Hnw & Hnm & Hpe & Hl & Hlen & Hin & Hout).
  unfold _killWorker.
  set (s1 := foldl (fun s entry => tokenizer_dispose entry.2 s) s (_tokenizers s)) in *.
  cbn. rewrite Hw.
  destruct (_worker s) as [worker|]; cbn;
    rewrite ?Hl, ?app_nil_r, <- ?app_assoc; done.
Qed.

(** *** Buffers added *)

Lemma onModelAdded_ignored model s :
  _workerProxy s = None \/ ITextModel.isTooLargeForSyncing model = true ->
  _onModelAdded model s = s.
Proof.
  unfold _onModelAdded. intros [->| ->]; [done|].
  by destruct (_workerProxy s).
Qed.

Lemma onModelAdded_unfold proxy model s :
  _workerProxy s = Some proxy ->
  ITextModel.isTooLargeForSyncing model = false ->
  _onModelAdded model s =
    set_tokenizers
      (JsObject.set (ITextModel.uri model) (length (objects s)) (_tokenizers s))
      (emit (call proxy <$> (ModelWorkerTextMateTokenizer.new proxy model).2)
         (set_objects
            (objects s ++ [(ModelWorkerTextMateTokenizer.new proxy model).1]) s)).
Proof.
  unfold _onModelAdded, new_tokenizer. intros -> ->.
  by destruct (ModelWorkerTextMateTokenizer.new proxy model).
Qed.

Lemma new_model_uri proxy model :
  ModelWorkerTextMateTokenizer.model_uri (ModelWorkerTextMateTokenizer.new proxy model).1
  = ITextModel.uri model.
Proof. by rewrite new_unfold. Qed.

(** The loop [getModels().forEach(model => this._onModelAdded(model))]
  while a proxy is set. *)
Lemma forEach_onModelAdded_spec proxy (models : list ITextModel.t) s :
  _workerProxy s = Some proxy ->
  let s' := foldl (fun s model => _onModelAdded model s) s models in
  let added := List.filter syncable models in
  _worker s' = _worker s /\ _workerProxy s' = Some proxy
  /\ _modelService s' = _modelService s
  /\ nextWorker s' = nextWorker s /\ nextModel s' = nextModel s
  /\ pending s' = pending s
  /\ objects s' =
       objects s ++ ((fun m => (ModelWorkerTextMateTokenizer.new proxy m).1) <$> added)
  /\ log s' =
       log s ++ concat ((fun m => call proxy <$> (ModelWorkerTextMateTokenizer.new proxy m).2)
                          <$> added)
  /\ (forall key, key ∈ JsObject.keys (_tokenizers s') <->
        key ∈ JsObject.keys (_tokenizers s) \/ key ∈ ITextModel.uri <$> added)
  /\ (forall key, key ∈ ITextModel.uri <$> added ->
        exists i self,
          JsObject.get key (_tokenizers s') = Some i
          /\ length (objects s) <= i
          /\ objects s' !! i = Some self
          /\ ModelWorkerTextMateTokenizer.model_uri self = key)
  /\ (forall key, key ∉ ITextModel.uri <$> added ->
        JsObject.get key (_tokenizers s') = JsObject.get key (_tokenizers s)).
Proof.
  cbv zeta. revert s.
  induction models as [|m models IH]; intros s Hp; cbn [foldl List.filter].
  - cbn. rewrite !app_nil_r. split_and!; try done.
    + intros key. rewrite elem_of_nil. tauto.
    + intros key Hk. by apply elem_of_nil in Hk.
  - destruct (syncable m) eqn:Es; unfold syncable in Es;
      apply (f_equal negb) in Es; rewrite negb_involutive in Es; cbn in Es.
    2: { rewrite onModelAdded_ignored by tauto. by apply IH. }
    rename Es into Em. cbn [fmap list_fmap concat].
    pose proof (onModelAdded_unfold proxy m s Hp Em) as E.
    set (s1 := _onModelAdded m s) in *.
    assert (_workerProxy s1 = Some proxy) as Hp1 by (by rewrite E).
    assert (objects s1 = objects s ++ [(ModelWorkerTextMateTokenizer.new proxy m).1])
      as Eo by (by rewrite E).
    assert (_tokenizers s1 =
            JsObject.set (ITextModel.uri m) (length (objects s)) (_tokenizers s))
      as Et by (by rewrite E).
    destruct (IH s1 Hp1) as (-> & -> & -> & -> & -> & -> & -> & -> & Hk & Hnew & Hold).
    rewrite Eo, Et, <- !app_assoc in *.
    split_and!; try done; try (by rewrite E).
    + by rewrite E; cbn; rewrite <- app_assoc.
    + intros key. rewrite Hk, JsObject_keys_set, elem_of_cons. tauto.
    + intros key Hkey.
      destruct (decide (key ∈ ITextModel.uri <$> List.filter syncable models))
        as [Hin|Hout].
      * destruct (Hnew key Hin) as (i & self & Hg & Hi & Ho & Hu).
        exists i, self. split_and!; try done.
        rewrite length_app in Hi; cbn in Hi. lia.
      * apply elem_of_cons in Hkey as [->|]; [|done].
        exists (length (objects s)), (ModelWorkerTextMateTokenizer.new proxy m).1.
        rewrite (Hold _ Hout), JsObject_get_set_eq.
        split_and!; try done.
        -- rewrite lookup_app_r by done. by rewrite Nat.sub_diag.
        -- apply new_model_uri.
    + intros key [Hne Hout]%not_elem_of_cons.
      rewrite (Hold _ Hout). by apply JsObject_get_set_ne.
Qed.

(** *** The claims about single operations *)

(** C5 (the claim as stated fails): when the promise of a live worker
  resolves while the model service knows a detached buffer that is not
  oversized and an attached one that is, the callback registers a
  synchroniser for the detached buffer; the keys of the map are not the
  URIs of the buffers that are attached and not oversized. *)
Lemma C5_detached_buffer_gets_synchroniser :
  JsObject.keys (_tokenizers (getProxy_then 0 sample_spawned))
  <> ITextModel.uri <$> List.filter attached_and_syncable (_modelService sample_spawned).
Proof. vm_compute. discriminate. Qed.

Lemma removal_is_call os i e :
  e ∈ removal os i ->
  exists self, self ∈ os
    /\ e = call (ModelWorkerTextMateTokenizer._worker self)
              (acceptRemovedModel (ModelWorkerTextMateTokenizer.model_uri self)).
Proof.
  unfold removal. destruct (os !! i) as [self|] eqn:E.
  - intros ->%list_elem_of_singleton. exists self. split; [|done].
    by eapply list_elem_of_lookup_2.
  - by intros ?%elem_of_nil.
Qed.

Lemma removals_are_calls os (js : list nat) e :
  e ∈ concat (removal os <$> js) ->
  exists self, self ∈ os
    /\ e = call (ModelWorkerTextMateTokenizer._worker self)
              (acceptRemovedModel (ModelWorkerTextMateTokenizer.model_uri self)).
Proof.
  induction js as [|j js IH]; cbn; [by intros ?%elem_of_nil|].
  intros [H|H]%elem_of_app; [by eapply removal_is_call | by apply IH].
Qed.

Lemma killWorker_creates_no_worker s worker defs :
  createWebWorker worker defs ∈ log (_killWorker s) -> createWebWorker worker defs ∈ log s.
Proof.
  destruct (killWorker_spec s) as (_ & _ & _ & _ & _ & _ & _ & Hl & _).
  rewrite Hl, !elem_of_app. intros [H|[H|H]]; [done| |].
  - apply removals_are_calls in H as (self & _ & H). discriminate H.
  - destruct (_worker s); [apply list_elem_of_singleton in H; discriminate H|].
    by apply elem_of_nil in H.
Qed.

(** *** Invariants of the event loop *)

Lemma fire_calls_uri ev m self c :
  c ∈ (fire ev m self).2 -> call_uri c = ModelWorkerTextMateTokenizer.model_uri self.
Proof.
  unfold fire. destruct (ModelWorkerTextMateTokenizer.listens _ _);
    [|by intros ?%elem_of_nil].
  destruct ev; cbn;
    unfold ModelWorkerTextMateTokenizer._onDidChangeAttached,
      ModelWorkerTextMateTokenizer._onDidChangeContent,
      ModelWorkerTextMateTokenizer._onDidChangeLanguage;
    repeat match goal with |- context [if ?b then _ else _] => destruct b end;
    cbn; rewrite ?list_elem_of_singleton, ?elem_of_nil; try done;
    by intros ->.
Qed.

Lemma new_calls_uri proxy model c :
  c ∈ (ModelWorkerTextMateTokenizer.new proxy model).2 -> call_uri c = ITextModel.uri model.
Proof.
  rewrite new_unfold; cbn. destruct (ITextModel.isAttachedToEditor model);
    [|by intros ?%elem_of_nil].
  by intros ->%list_elem_of_singleton.
Qed.

Lemma notify_spec ev m os :
  length (notify ev m os).1 = length os
  /\ (forall self', self' ∈ (notify ev m os).1 ->
        exists self, self ∈ os
          /\ ModelWorkerTextMateTokenizer._model self' = ModelWorkerTextMateTokenizer._model self)
  /\ (forall e, e ∈ (notify ev m os).2 ->
        exists self c, self ∈ os
          /\ e = call (ModelWorkerTextMateTokenizer._worker self) c
          /\ call_uri c = ModelWorkerTextMateTokenizer.model_uri self).
Proof.
  induction os as [|self os (IHl & IHo & IHe)]; cbn.
  - split_and!; [done| |]; intros ? ?%elem_of_nil; done.
  - destruct (notify ev m os) as [rest' effects]; cbn in *.
    set (r := if Nat.eqb _ _ then fire ev m self else ModelWorkerTextMateTokenizer.ret self).
    assert (ModelWorkerTextMateTokenizer._model r.1 = ModelWorkerTextMateTokenizer._model self
            /\ forall c, c ∈ r.2 -> call_uri c = ModelWorkerTextMateTokenizer.model_uri self)
      as [Hm Hc].
    { subst r. destruct (Nat.eqb _ _); cbn.
      - split; [apply fire_frame | apply fire_calls_uri].
      - split; [done|]. by intros ? ?%elem_of_nil. }
    destruct r as [self' calls]; cbn in *.
    split_and!.
    + by rewrite IHl.
    + intros x [->|Hx]%elem_of_cons.
      * exists self. split; [left|done].
      * destruct (IHo x Hx) as (y & Hy & E). exists y. split; [by right|done].
    + intros e [He|He]%elem_of_app.
      * apply list_elem_of_fmap in He as (c & -> & Hcin).
        exists self, c. split_and!; [left|done|by apply Hc].
      * destruct (IHe e He) as (y & c & Hy & E1 & E2).
        exists y, c. split_and!; [by right|done|done].
Qed.

Lemma JsObject_keys_delete key o k :
  k ∈ JsObject.keys (JsObject.delete key o) -> k ∈ JsObject.keys o.
Proof.
  unfold JsObject.keys. induction o as [|[k0 y] o IH]; cbn; [done|].
  destruct (String.eqb k0 key); cbn; rewrite !elem_of_cons; tauto.
Qed.

Lemma alter_super_dispose_elem (os : list ModelWorkerTextMateTokenizer.t) i self' :
  self' ∈ alter ModelWorkerTextMateTokenizer.super_dispose i os ->
  exists self, self ∈ os
    /\ ModelWorkerTextMateTokenizer._model self' = ModelWorkerTextMateTokenizer._model self.
Proof.
  intros [j Hj]%list_elem_of_lookup_1.
  destruct (decide (i = j)) as [->|Hne].
  - rewrite list_lookup_alter_eq in Hj.
    destruct (os !! j) as [self|] eqn:E; [|done].
    injection Hj as <-. exists self. split; [by eapply list_elem_of_lookup_2|done].
  - rewrite list_lookup_alter_ne in Hj by done.
    exists self'. split; [by eapply list_elem_of_lookup_2|done].
Qed.

Lemma quiet_tokenizer_dispose uri i s :
  quiet uri s -> quiet uri (tokenizer_dispose i s).
Proof.
  intros (Ho & Hk & Hl). rewrite tokenizer_dispose_unfold.
  split_and!; cbn; [|done|].
  - intros self' (self & Hin & E)%alter_super_dispose_elem.
    unfold ModelWorkerTextMateTokenizer.model_uri. rewrite E. by apply Ho.
  - intros proxy c [H|H]%elem_of_app; [by eapply Hl|].
    apply removal_is_call in H as (self & Hin & [= -> ->]). by apply Ho.
Qed.

Lemma quiet_set_tokenizers uri o s :
  (forall k, k ∈ JsObject.keys o -> k ∈ JsObject.keys (_tokenizers s)) ->
  quiet uri s -> quiet uri (set_tokenizers o s).
Proof.
  intros Hsub (Ho & Hk & Hl). split_and!; cbn; [done| |done].
  intros ?%Hsub. done.
Qed.

Lemma quiet_dispose_entries uri (l : JsObject.t) s :
  quiet uri s -> quiet uri (foldl (fun s entry => tokenizer_dispose entry.2 s) s l).
Proof.
  revert s. induction l as [|[k i] l IH]; intros s H; cbn; [done|].
  by apply IH, quiet_tokenizer_dispose.
Qed.

Lemma quiet_killWorker uri s : quiet uri s -> quiet uri (_killWorker s).
Proof.
  intros H. unfold _killWorker.
  apply (quiet_dispose_entries uri (_tokenizers s)) in H.
  apply (quiet_set_tokenizers uri []) in H; [|by intros ? ?%elem_of_nil].
  set (s1 := set_tokenizers [] _) in *.
  destruct H as (Ho & Hk & Hl).
  assert (quiet uri match _worker s1 with
                    | Some worker => set_worker None (emit [worker_dispose worker] s1)
                    | None => s1
                    end) as (Ho' & Hk' & Hl').
  { destruct (_worker s1); [|done]. split_and!; cbn; [done|done|].
    intros proxy c [?|?%list_elem_of_singleton]%elem_of_app; [by eapply Hl|done]. }
  done.
Qed.

Lemma quiet_onModelRemoved uri model s :
  quiet uri s -> quiet uri (_onModelRemoved model s).
Proof.
  intros H. unfold _onModelRemoved.
  destruct (JsObject.get _ _) as [i|]; [|done].
  apply quiet_set_tokenizers; [|by apply quiet_tokenizer_dispose].
  intros k Hk%JsObject_keys_delete.
  rewrite tokenizer_dispose_unfold in *. done.
Qed.

Lemma quiet_onModelAdded uri model s :
  (ITextModel.uri model = uri -> ITextModel.isTooLargeForSyncing model = true) ->
  quiet uri s -> quiet uri (_onModelAdded model s).
Proof.
  intros Hbig (Ho & Hk & Hl).
  destruct (_workerProxy s) as [proxy|] eqn:Ep;
    [|by rewrite onModelAdded_ignored by tauto].
  destruct (ITextModel.isTooLargeForSyncing model) eqn:Em;
    [by rewrite onModelAdded_ignored by tauto|].
  assert (ITextModel.uri model <> uri) as Hne by (intros ?%Hbig; done).
  rewrite (onModelAdded_unfold proxy) by done.
  split_and!; cbn.
  - intros self [?|Hs%list_elem_of_singleton]%elem_of_app; [by apply Ho|].
    subst self. by rewrite new_model_uri.
  - intros [->|?]%JsObject_keys_set; done.
  - intros p c [?|H]%elem_of_app; [by eapply Hl|].
    apply list_elem_of_fmap in H as (c' & [= -> ->] & Hc).
    by rewrite (new_calls_uri _ _ _ Hc).
Qed.

Lemma quiet_forEach uri (models : list ITextModel.t) s :
  only_oversized uri models ->
  quiet uri s -> quiet uri (foldl (fun s model => _onModelAdded model s) s models).
Proof.
  revert s. induction models as [|m models IH]; intros s Hbig H; cbn; [done|].
  apply IH.
  - intros m' Hm'. apply Hbig. by right.
  - apply quiet_onModelAdded; [|done]. apply Hbig. by left.
Qed.

Lemma quiet_getProxy_then uri worker s :
  only_oversized uri (_modelService s) ->
  quiet uri s -> quiet uri (getProxy_then worker s).
Proof.
  intros Hbig H. unfold getProxy_then. case_bool_decide; [done|].
  by apply quiet_forEach.
Qed.

Lemma forEach_without_proxy (models : list ITextModel.t) s :
  _workerProxy s = None -> foldl (fun s model => _onModelAdded model s) s models = s.
Proof.
  intros Hp. induction models as [|m models IH]; cbn; [done|].
  by rewrite onModelAdded_ignored by tauto.
Qed.

Lemma new_service_unfold (models : list ITextModel.t) :
  TextMateService.new models =
    {| _worker := None; _workerProxy := None; _tokenizers := [];
       _modelService := models; objects := []; log := [];
       nextWorker := 0;
       nextModel := S (foldr max 0 (ITextModel.id <$> models));
       pending := [] |}.
Proof. unfold TextMateService.new, forEach_onModelAdded. by apply forEach_without_proxy. Qed.

Lemma modelService_onModelAdded model s :
  _modelService (_onModelAdded model s) = _modelService s.
Proof.
  destruct (_workerProxy s) as [proxy|] eqn:Ep;
    [|by rewrite onModelAdded_ignored by tauto].
  destruct (ITextModel.isTooLargeForSyncing model) eqn:Em;
    [by rewrite onModelAdded_ignored by tauto|].
  by rewrite (onModelAdded_unfold proxy).
Qed.

Lemma modelService_forEach (models : list ITextModel.t) s :
  _modelService (foldl (fun s model => _onModelAdded model s) s models) = _modelService s.
Proof.
  revert s. induction models as [|m models IH]; intros s; cbn; [done|].
  by rewrite IH, modelService_onModelAdded.
Qed.

Lemma modelService_onModelRemoved model s :
  _modelService (_onModelRemoved model s) = _modelService s.
Proof.
  unfold _onModelRemoved. destruct (JsObject.get _ _); [|done].
  by rewrite tokenizer_dispose_unfold.
Qed.

Lemma modelService_getProxy_then worker s :
  _modelService (getProxy_then worker s) = _modelService s.
Proof.
  unfold getProxy_then, forEach_onModelAdded. case_bool_decide; [done|].
  by rewrite modelService_forEach.
Qed.

Lemma modelService_onDidCreateGrammarFactory toggle defs s :
  _modelService (_onDidCreateGrammarFactory toggle defs s) = _modelService s.
Proof.
  destruct (killWorker_spec s) as (_ & _ & _ & Hm & _).
  unfold _onDidCreateGrammarFactory. by destruct toggle.
Qed.

(** A URI whose buffers are all oversized stays out of the manager, turn
  by turn. *)
Lemma quiet_step toggle uri s ev :
  only_oversized uri (added_models [ev]) ->
  only_oversized uri (_modelService s) -> quiet uri s ->
  only_oversized uri (_modelService (step toggle s ev)) /\ quiet uri (step toggle s ev).
Proof.
  intros Hev Hbig Hq. destruct ev as [model|u|u ev|defs| |worker]; cbn [step].
  - case_bool_decide; [done|].
    set (model' := with_id (nextModel s) model).
    set (s1 := TextMateService.mk _ _ _ _ _ _ _ _ _).
    assert (ITextModel.uri model' = uri ->
            ITextModel.isTooLargeForSyncing model' = true) as Hm.
    { apply (Hev model). cbn. by left. }
    rewrite modelService_onModelAdded. split.
    + intros m [?|Hm'%list_elem_of_singleton]%elem_of_app; [by apply Hbig|].
      by subst m.
    + by apply quiet_onModelAdded.
  - destruct (getModel u (_modelService s)) as [model|]; [|done].
    rewrite modelService_onModelRemoved. split.
    + intros m Hm. apply Hbig.
      apply list_elem_of_In, filter_In in Hm as [Hm _]. by apply list_elem_of_In.
    + by apply quiet_onModelRemoved.
  - destruct (getModel u (_modelService s)) as [model|]; [|done].
    destruct (notify_spec ev (mutate ev model) (objects s)) as (_ & Ho & He).
    destruct (notify ev (mutate ev model) (objects s)) as [objects' effects].
    cbn in *. destruct Hq as (Hqo & Hqk & Hql). split; [|split_and!; cbn].
    + intros m' (m & -> & Hm)%list_elem_of_fmap.
      destruct (String.eqb _ _); [|by apply Hbig].
      rewrite mutate_uri, mutate_tooLarge. by apply Hbig.
    + intros self' (self & Hin & E)%Ho.
      unfold ModelWorkerTextMateTokenizer.model_uri. rewrite E. by apply Hqo.
    + done.
    + intros proxy c [?|H]%elem_of_app; [by eapply Hql|].
      apply He in H as (self & c' & Hin & [= -> ->] & ->). by apply Hqo.
  - rewrite modelService_onDidCreateGrammarFactory. split; [done|].
    apply quiet_killWorker in Hq. unfold _onDidCreateGrammarFactory.
    destruct toggle; [|done].
    destruct Hq as (Hqo & Hqk & Hql). split_and!; cbn; [done|done|].
    intros proxy c [?|?%list_elem_of_singleton]%elem_of_app; [by eapply Hql|done].
  - unfold _onDidDisposeGrammarFactory.
    destruct (killWorker_spec s) as (_ & _ & _ & -> & _).
    split; [done|]. by apply quiet_killWorker.
  - case_bool_decide; [|done].
    rewrite modelService_getProxy_then. split; [done|].
    by apply quiet_getProxy_then.
Qed.

Lemma quiet_run toggle uri evs s :
  only_oversized uri (added_models evs) ->
  only_oversized uri (_modelService s) -> quiet uri s ->
  quiet uri (run toggle s evs).
Proof.
  revert s. induction evs as [|ev evs IH]; intros s Hevs Hbig Hq; cbn; [done|].
  destruct (quiet_step toggle uri s ev) as [Hbig' Hq']; try done.
  - intros m Hm. apply Hevs. unfold added_models in *. cbn in *.
    rewrite app_nil_r in Hm. apply elem_of_app. by left.
  - apply IH; try done.
    intros m Hm. apply Hevs. unfold added_models in *. cbn.
    apply elem_of_app. by right.
Qed.

Lemma quiet_new uri (models : list ITextModel.t) : quiet uri (TextMateService.new models).
Proof.
  rewrite new_service_unfold. split_and!; cbn.
  - by intros ? ?%elem_of_nil.
  - apply not_elem_of_nil.
  - by intros ? ? ?%elem_of_nil.
Qed.

(** C8: a buffer-added notification changes nothing when no proxy is set
  or when the buffer is oversized; otherwise one synchroniser is
  constructed on the buffer, with the calls of its constructor sent to the
  proxy, and registered in the map under the buffer's URI, the other
  entries being kept. Consequently, whatever the events (attach and detach
  included), as long as the buffers of a URI are oversized the manager
  holds no synchroniser for that URI, no entry of the map, and has sent no
  call about it. *)
Theorem C8_buffer_added_unless_oversized toggle :
  (forall model s,
     _workerProxy s = None \/ ITextModel.isTooLargeForSyncing model = true ->
     _onModelAdded model s = s)
  /\ (forall proxy model s,
       _workerProxy s = Some proxy ->
       ITextModel.isTooLargeForSyncing model = false ->
       let s' := _onModelAdded model s in
       objects s' = objects s ++ [(ModelWorkerTextMateTokenizer.new proxy model).1]
       /\ JsObject.get (ITextModel.uri model) (_tokenizers s') = Some (length (objects s))
       /\ (forall key, key <> ITextModel.uri model ->
             JsObject.get key (_tokenizers s') = JsObject.get key (_tokenizers s))
       /\ log s' = log s ++ (call proxy <$> constructor_calls model))
  /\ (forall uri models evs,
       only_oversized uri models ->
       only_oversized uri (added_models evs) ->
       quiet uri (run toggle (TextMateService.new models) evs)).
Proof.
  split_and!.
  - apply onModelAdded_ignored.
  - intros proxy model s Hp Hm. cbv zeta.
    rewrite (onModelAdded_unfold proxy) by done. cbn.
    split_and!; [done| | |].
    + apply JsObject_get_set_eq.
    + intros key Hne. by apply JsObject_get_set_ne.
    + by rewrite new_unfold.
  - intros uri models evs Hmodels Hevs. apply quiet_run; [done| |apply quiet_new].
    by rewrite new_service_unfold.
Qed.

Lemma C8_witness :
  _onModelAdded sample_oversized sample_service = sample_service
  /\ JsObject.get "file:///c.ts" (_tokenizers (_onModelAdded sample_added sample_service))
     = Some 2
  /\ quiet "file:///big.ts"
       (run true (TextMateService.new [sample_oversized])
          [grammarFactoryCreated []; proxyResolved 0;
           modelEvent "file:///big.ts" (changeAttached false);
           modelEvent "file:///big.ts" (changeAttached true)]).
Proof.
  split_and!.
  - apply (proj1 (C8_buffer_added_unless_oversized true)). right. reflexivity.
  - apply (proj1 (proj2 (C8_buffer_added_unless_oversized true))
             0 sample_added sample_service eq_refl eq_refl).
  - apply (proj2 (proj2 (C8_buffer_added_unless_oversized true))).
    + intros m Hm%list_elem_of_singleton _. by subst m.
    + intros m Hm. by apply elem_of_nil in Hm.
Defined.

(** *** The map refers to stored synchronisers in every reachable state *)

Lemma JsObject_Forall_set (P : string * nat -> Prop) key v o :
  P (key, v) -> (forall k x, P (k, x) -> P (k, v)) -> Forall P o ->
  Forall P (JsObject.set key v o).
Proof.
  intros Hv Hk. induction o as [|[k0 y] o IH]; cbn; intros Ho.
  - by apply Forall_cons.
  - apply Forall_cons in Ho as [Hy Ho].
    destruct (String.eqb k0 key); apply Forall_cons; split; eauto.
Qed.

Lemma JsObject_Forall_delete (P : string * nat -> Prop) key o :
  Forall P o -> Forall P (JsObject.delete key o).
Proof.
  induction o as [|[k0 y] o IH]; cbn; intros Ho; [done|].
  apply Forall_cons in Ho as [Hy Ho].
  destruct (String.eqb k0 key); [by apply IH|]. apply Forall_cons. by split; [|apply IH].
Qed.

Lemma registered_onModelAdded model s : registered s -> registered (_onModelAdded model s).
Proof.
  intros [Hlt Hnd].
  destruct (_workerProxy s) as [proxy|] eqn:Ep;
    [|by rewrite onModelAdded_ignored by tauto].
  destruct (ITextModel.isTooLargeForSyncing model) eqn:Em;
    [by rewrite onModelAdded_ignored by tauto|].
  rewrite (onModelAdded_unfold proxy) by done.
  split; cbn.
  - rewrite length_app; cbn. apply JsObject_Forall_set; cbn; [lia|intros; lia|].
    eapply Forall_impl; [exact Hlt|]. cbn. intros; lia.
  - apply JsObject_NoDup_set; [|done].
    intros (e & E & He)%list_elem_of_fmap. rewrite Forall_forall in Hlt.
    specialize (Hlt e He). lia.
Qed.

Lemma registered_forEach (models : list ITextModel.t) s :
  registered s -> registered (foldl (fun s model => _onModelAdded model s) s models).
Proof.
  revert s. induction models as [|m models IH]; intros s H; cbn; [done|].
  by apply IH, registered_onModelAdded.
Qed.

Lemma registered_onModelRemoved model s : registered s -> registered (_onModelRemoved model s).
Proof.
  intros [Hlt Hnd]. unfold _onModelRemoved.
  destruct (JsObject.get _ _) as [i|]; [|done].
  rewrite tokenizer_dispose_unfold. split; cbn.
  - rewrite length_alter. by apply JsObject_Forall_delete.
  - by apply JsObject_NoDup_delete.
Qed.

Lemma registered_killWorker s : registered (_killWorker s).
Proof.
  destruct (killWorker_spec s) as (_ & _ & Ht & _). unfold registered.
  rewrite Ht. split; [apply Forall_nil_2 | apply NoDup_nil_2].
Qed.

Lemma registered_step toggle s ev : registered s -> registered (step toggle s ev).
Proof.
  intros H. destruct ev as [model|u|u ev|defs| |worker]; cbn [step].
  - case_bool_decide; [done|]. by apply registered_onModelAdded.
  - destruct (getModel _ _); [|done]. by apply registered_onModelRemoved.
  - destruct (getModel u (_modelService s)) as [model|]; [|done].
    destruct (notify_spec ev (mutate ev model) (objects s)) as (Hlen & _).
    destruct (notify _ _ _) as [objects' effects]. cbn in *.
    destruct H as [Hlt Hnd]. split; cbn; [by rewrite Hlen|done].
  - pose proof (registered_killWorker s) as [Hlt Hnd].
    unfold _onDidCreateGrammarFactory. by destruct toggle.
  - apply registered_killWorker.
  - case_bool_decide; [|done].
    unfold getProxy_then, forEach_onModelAdded. case_bool_decide; [done|].
    by apply registered_forEach.
Qed.

(** Every state the event loop reaches from a new manager satisfies the
  premise of the property of [_killWorker]. *)
Lemma registered_run toggle (models : list ITextModel.t) evs :
  registered (run toggle (TextMateService.new models) evs).
Proof.
  assert (registered (TextMateService.new models)) as H.
  { rewrite new_service_unfold. split; [apply Forall_nil_2 | apply NoDup_nil_2]. }
  revert H. generalize (TextMateService.new models).
  induction evs as [|ev evs IH]; intros s H; cbn; [done|].
  by apply IH, registered_step.
Qed.

(** *** Every listening synchroniser is registered, in every reachable state *)

Lemma JsObject_set_fresh key v o :
  key ∉ JsObject.keys o -> JsObject.set key v o = o ++ [(key, v)].
Proof.
  unfold JsObject.keys. induction o as [|[k x] o IH]; cbn; [done|].
  rewrite not_elem_of_cons. intros [Hne Hk].
  destruct (String.eqb_spec k key); [congruence|]. by rewrite IH.
Qed.

Lemma JsObject_keys_delete_ne key o k :
  k ∈ JsObject.keys (JsObject.delete key o) -> k <> key.
Proof.
  unfold JsObject.keys. induction o as [|[k0 y] o IH]; cbn; [by intros ?%elem_of_nil|].
  destruct (String.eqb_spec k0 key); cbn; [done|].
  rewrite elem_of_cons. intros [->|?]; [done|by apply IH].
Qed.

Lemma JsObject_NoDup_keys_delete key o :
  NoDup (JsObject.keys o) -> NoDup (JsObject.keys (JsObject.delete key o)).
Proof.
  unfold JsObject.keys. induction o as [|[k0 y] o IH]; cbn; [done|].
  rewrite NoDup_cons. intros [Hy Ho].
  destruct (String.eqb k0 key); cbn; [by apply IH|].
  rewrite NoDup_cons. split; [|by apply IH].
  intros ?%JsObject_keys_delete; done.
Qed.

Lemma JsObject_delete_keeps key o k v :
  (k, v) ∈ o -> k <> key -> v ∈ (JsObject.delete key o).*2.
Proof.
  induction o as [|[k0 y] o IH]; cbn; [by intros ?%elem_of_nil|].
  intros [[= <- <-]|Hin]%elem_of_cons Hne.
  - destruct (String.eqb_spec k key); [done|]. cbn. by left.
  - destruct (String.eqb k0 key); cbn; [|right]; by apply IH.
Qed.

Lemma JsObject_get_unique key o i j :
  NoDup (JsObject.keys o) -> JsObject.get key o = Some i -> (key, j) ∈ o -> j = i.
Proof.
  unfold JsObject.keys. induction o as [|[k0 y] o IH]; cbn; [done|].
  rewrite NoDup_cons. intros [Hy Ho] Hg [[= <- <-]|Hin]%elem_of_cons.
  - rewrite String.eqb_refl in Hg. congruence.
  - destruct (String.eqb_spec k0 key) as [->|]; [|by apply IH].
    destruct Hy. apply list_elem_of_fmap. by exists (key, j).
Qed.

Lemma getModel_Some uri (models : list ITextModel.t) model :
  getModel uri models = Some model -> model ∈ models /\ ITextModel.uri model = uri.
Proof.
  unfold getModel. intros [Hin He]%find_some.
  split; [by apply list_elem_of_In|]. by apply String.eqb_eq.
Qed.

Lemma NoDup_uri_filter (p : ITextModel.t -> bool) (models : list ITextModel.t) :
  NoDup (ITextModel.uri <$> models) -> NoDup (ITextModel.uri <$> List.filter p models).
Proof.
  induction models as [|m models IH]; cbn; [done|].
  rewrite NoDup_cons. intros [Hm Hnd].
  destruct (p m); cbn; [|by apply IH].
  rewrite NoDup_cons. split; [|by apply IH].
  intros (m' & E & Hin)%list_elem_of_fmap. apply Hm.
  apply list_elem_of_fmap. exists m'. split; [done|].
  apply list_elem_of_In, filter_In in Hin as [Hin _]. by apply list_elem_of_In.
Qed.

Lemma notify_lookup ev m (os : list ModelWorkerTextMateTokenizer.t) i self' :
  (notify ev m os).1 !! i = Some self' ->
  exists self, os !! i = Some self
    /\ ModelWorkerTextMateTokenizer._super self' = ModelWorkerTextMateTokenizer._super self.
Proof.
  revert i. induction os as [|self os IH]; intros i; cbn; [done|].
  destruct (notify ev m os) as [rest' effects]; cbn in *.
  set (r := if Nat.eqb _ _ then fire ev m self else ModelWorkerTextMateTokenizer.ret self).
  assert (ModelWorkerTextMateTokenizer._super r.1 = ModelWorkerTextMateTokenizer._super self)
    as Hr.
  { subst r. destruct (Nat.eqb _ _); [apply fire_frame|done]. }
  destruct r as [self1 calls]; cbn in *.
  destruct i as [|i]; cbn.
  - intros [= <-]. by exists self.
  - apply IH.
Qed.

Lemma keys_onModelAdded model s k :
  k ∈ JsObject.keys (_tokenizers (_onModelAdded model s)) ->
  k = ITextModel.uri model \/ k ∈ JsObject.keys (_tokenizers s).
Proof.
  destruct (_workerProxy s) as [proxy|] eqn:Ep;
    [|rewrite onModelAdded_ignored by tauto; tauto].
  destruct (ITextModel.isTooLargeForSyncing model) eqn:Em;
    [rewrite onModelAdded_ignored by tauto; tauto|].
  rewrite (onModelAdded_unfold proxy) by done. cbn.
  by rewrite JsObject_keys_set.
Qed.

Lemma covered_onModelAdded model s :
  ITextModel.uri model ∉ JsObject.keys (_tokenizers s) ->
  NoDup (JsObject.keys (_tokenizers s)) -> covered s ->
  NoDup (JsObject.keys (_tokenizers (_onModelAdded model s)))
  /\ covered (_onModelAdded model s).
Proof.
  intros Hfresh Hnd Hc.
  destruct (_workerProxy s) as [proxy|] eqn:Ep;
    [|by rewrite onModelAdded_ignored by tauto].
  destruct (ITextModel.isTooLargeForSyncing model) eqn:Em;
    [by rewrite onModelAdded_ignored by tauto|].
  rewrite (onModelAdded_unfold proxy) by done. unfold covered; cbn.
  rewrite JsObject_set_fresh by done. unfold JsObject.keys. rewrite !fmap_app; cbn.
  split.
  - apply NoDup_app. split_and!; [done| |apply NoDup_singleton].
    intros k Hk ->%list_elem_of_singleton. done.
  - intros i self l Hi Hl. apply elem_of_app.
    apply lookup_app_Some in Hi as [Hi|[Hlen Hi]]; [left; by eapply Hc|right].
    apply list_lookup_singleton_Some in Hi as [Hi _].
    apply list_elem_of_singleton. lia.
Qed.

Lemma covered_forEach (models : list ITextModel.t) s :
  NoDup (ITextModel.uri <$> models) ->
  (forall m, m ∈ models -> ITextModel.uri m ∉ JsObject.keys (_tokenizers s)) ->
  NoDup (JsObject.keys (_tokenizers s)) -> covered s ->
  NoDup (JsObject.keys (_tokenizers (foldl (fun s model => _onModelAdded model s) s models)))
  /\ covered (foldl (fun s model => _onModelAdded model s) s models).
Proof.
  revert s. induction models as [|m models IH]; intros s Hu Hfresh Hnd Hc; cbn; [done|].
  cbn in Hu. apply NoDup_cons in Hu as [Hm Hu].
  destruct (covered_onModelAdded m s) as [Hnd' Hc']; try done.
  { apply Hfresh. by left. }
  apply IH; try done.
  intros m' Hm' [E|Hk]%keys_onModelAdded.
  - apply Hm. rewrite <- E. apply list_elem_of_fmap. by exists m'.
  - revert Hk. apply Hfresh. by right.
Qed.

Lemma covered_onModelRemoved model s :
  NoDup (JsObject.keys (_tokenizers s)) -> covered s ->
  NoDup (JsObject.keys (_tokenizers (_onModelRemoved model s)))
  /\ covered (_onModelRemoved model s).
Proof.
  intros Hnd Hc. unfold _onModelRemoved.
  destruct (JsObject.get _ _) as [i|] eqn:Hg; [|done].
  rewrite tokenizer_dispose_unfold. unfold covered; cbn.
  split; [by apply JsObject_NoDup_keys_delete|].
  intros j self l Hj Hl.
  destruct (decide (i = j)) as [->|Hne].
  { rewrite list_lookup_alter_eq in Hj.
    destruct (objects s !! j); [|done]. injection Hj as <-. by destruct l. }
  rewrite list_lookup_alter_ne in Hj by done.
  pose proof (Hc j self l Hj Hl) as ([k j'] & E & Hin)%list_elem_of_fmap.
  cbn in E; subst j'. eapply JsObject_delete_keeps; [done|].
  intros ->. apply Hne. symmetry. by eapply JsObject_get_unique.
Qed.

(** After [_killWorker] no synchroniser listens any more, provided all
  that listened were registered. *)
Lemma killWorker_silences s i self l :
  covered s ->
  objects (_killWorker s) !! i = Some self ->
  ModelWorkerTextMateTokenizer.listens l self = false.
Proof.
  intros Hc Hi.
  destruct (killWorker_spec s) as (_ & _ & _ & _ & _ & _ & _ & _ & _ & Hin & Hout).
  destruct (decide (i ∈ (_tokenizers s).*2)) as [Hreg|Hreg].
  - rewrite (Hin i Hreg) in Hi. destruct (objects s !! i); [|done].
    injection Hi as <-. by destruct l.
  - rewrite (Hout i Hreg) in Hi.
    destruct (ModelWorkerTextMateTokenizer.listens l self) eqn:E; [|done].
    destruct Hreg. by eapply Hc.
Qed.

Lemma covered_killWorker s : covered s -> covered (_killWorker s).
Proof.
  intros Hc i self l Hi Hl. by rewrite (killWorker_silences s i self l Hc Hi) in Hl.
Qed.

Lemma frame_onModelAdded model s :
  _worker (_onModelAdded model s) = _worker s
  /\ _workerProxy (_onModelAdded model s) = _workerProxy s
  /\ pending (_onModelAdded model s) = pending s.
Proof.
  destruct (_workerProxy s) as [proxy|] eqn:Ep;
    [|by rewrite onModelAdded_ignored, Ep by tauto].
  destruct (ITextModel.isTooLargeForSyncing model) eqn:Em;
    [by rewrite onModelAdded_ignored, Ep by tauto|].
  by rewrite (onModelAdded_unfold proxy).
Qed.

Lemma frame_onModelRemoved model s :
  _worker (_onModelRemoved model s) = _worker s
  /\ _workerProxy (_onModelRemoved model s) = _workerProxy s
  /\ pending (_onModelRemoved model s) = pending s.
Proof.
  unfold _onModelRemoved. destruct (JsObject.get _ _); [|done].
  by rewrite tokenizer_dispose_unfold.
Qed.

Lemma uri_fmap_mutate uri ev (models : list ITextModel.t) :
  ITextModel.uri <$>
    ((fun m => if String.eqb (ITextModel.uri m) uri then mutate ev m else m) <$> models)
  = ITextModel.uri <$> models.
Proof.
  rewrite <- list_fmap_compose. apply list_fmap_ext. intros _ m _. cbn.
  destruct (String.eqb _ _); [apply mutate_uri|done].
Qed.

Lemma tidy_step toggle s ev : tidy s -> tidy (step toggle s ev).
Proof.
  intros (T1 & T2 & T3 & T4 & T5 & T6).
  destruct ev as [model|u|u ev|defs| |worker]; cbn [step].
  - case_bool_decide as Hin; [done|].
    set (model' := with_id (nextModel s) model).
    set (s1 := TextMateService.mk _ _ _ _ _ _ _ _ _).
    assert (ITextModel.uri model' ∉ JsObject.keys (_tokenizers s1)) as Hfresh
      by (by intros ?%T3).
    destruct (covered_onModelAdded model' s1 Hfresh T2 T6) as [T2' T6'].
    destruct (frame_onModelAdded model' s1) as (Ew & Ep & Epe).
    unfold tidy. rewrite modelService_onModelAdded, Ew, Ep, Epe. cbn.
    rewrite fmap_app. cbn.
    split_and!; try done.
    + apply NoDup_app. split_and!; [done| |apply NoDup_singleton].
      intros k Hk Hk'%list_elem_of_singleton. by subst k.
    + intros k [->|Hk]%keys_onModelAdded; apply elem_of_app;
        [right; by apply list_elem_of_singleton | left; by apply T3].
    + intros Hp. rewrite onModelAdded_ignored by (by left). by apply T4.
  - destruct (getModel u (_modelService s)) as [model|] eqn:Hg; [|done].
    apply getModel_Some in Hg as [Hmodel Hu].
    set (s1 := set_modelService _ s).
    destruct (covered_onModelRemoved model s1 T2 T6) as [T2' T6'].
    destruct (frame_onModelRemoved model s1) as (Ew & Ep & Epe).
    unfold tidy. rewrite modelService_onModelRemoved, Ew, Ep, Epe. cbn.
    split_and!; try done.
    + by apply NoDup_uri_filter.
    + intros k Hk.
      assert (k <> u /\ k ∈ JsObject.keys (_tokenizers s)) as [Hne Hks].
      { unfold _onModelRemoved in Hk. rewrite Hu in Hk.
        destruct (JsObject.get u (_tokenizers s1)) as [i|] eqn:Hget.
        - rewrite tokenizer_dispose_unfold in Hk. cbn in Hk.
          split; [by eapply JsObject_keys_delete_ne | by eapply JsObject_keys_delete].
        - split; [|done]. apply JsObject_get_None in Hget. by intros ->. }
      apply T3, list_elem_of_fmap in Hks as (m & -> & Hm).
      apply list_elem_of_fmap. exists m. split; [done|].
      apply list_elem_of_In, filter_In. split; [by apply list_elem_of_In|].
      apply negb_true_iff. by apply String.eqb_neq.
    + intros Hp. unfold _onModelRemoved. subst s1. cbn.
      rewrite (T4 Hp). cbn. by apply T4.
  - destruct (getModel u (_modelService s)) as [model|]; [|done].
    pose proof (notify_lookup ev (mutate ev model) (objects s)) as Hn.
    destruct (notify _ _ _) as [objects' effects]. cbn in Hn.
    unfold tidy, covered. cbn. rewrite uri_fmap_mutate.
    split_and!; try done.
    intros i self' l (self & Hi & E)%Hn Hl.
    apply (T6 i self l Hi). unfold ModelWorkerTextMateTokenizer.listens in *.
    by rewrite <- E.
  - destruct (killWorker_spec s) as (Hw & Hp & Ht & Hm & _ & _ & Hpe & _).
    pose proof (covered_killWorker s T6) as Hc.
    unfold _onDidCreateGrammarFactory.
    remember (_killWorker s) as killed eqn:Ek.
    unfold tidy, covered in *. rewrite Ht in Hc.
    destruct toggle; cbn; rewrite ?Hm, ?Ht, ?Hp; cbn;
      (split_and!; try done; try apply NoDup_nil_2;
       try (by intros ? ?%elem_of_nil)).
  - unfold _onDidDisposeGrammarFactory.
    destruct (killWorker_spec s) as (Hw & Hp & Ht & Hm & _ & _ & Hpe & _).
    pose proof (covered_killWorker s T6) as Hc.
    remember (_killWorker s) as killed eqn:Ek.
    unfold tidy, covered in *. rewrite Ht in Hc. rewrite ?Hm, ?Ht, ?Hp; cbn.
    split_and!; try done; try apply NoDup_nil_2.
    by intros ? ?%elem_of_nil.
  - case_bool_decide as Hin; [|done].
    set (s1 := set_pending _ s).
    unfold getProxy_then. case_bool_decide as Hlive.
    { unfold tidy, covered. cbn. split_and!; try done.
      intros w Hw%list_elem_of_In%filter_In. apply T5, list_elem_of_In, Hw. }
    cbn in Hlive.
    pose proof (T4 (T5 worker Hin Hlive)) as Hempty.
    unfold forEach_onModelAdded.
    destruct (forEach_onModelAdded_spec worker (_modelService s)
                (set_workerProxy (Some worker) s1) eq_refl)
      as (Ew & Ep & Em & _ & _ & Epe & _ & _ & Hk & _).
    destruct (covered_forEach (_modelService s) (set_workerProxy (Some worker) s1))
      as [T2' T6']; try done.
    { cbn. rewrite Hempty. intros m _. apply not_elem_of_nil. }
    cbn in *. unfold tidy. rewrite Ew, Ep, Em, Epe. cbn.
    split_and!; try done.
    + intros k [Hk'|Hk']%Hk; [by apply T3|].
      apply list_elem_of_fmap in Hk' as (m & -> & Hm).
      apply list_elem_of_fmap. exists m. split; [done|].
      apply list_elem_of_In, filter_In in Hm as [Hm _]. by apply list_elem_of_In.
    + intros w Hw%list_elem_of_In%filter_In Hw'.
      destruct Hw as [_ Hne]. apply negb_true_iff, Nat.eqb_neq in Hne. congruence.
Qed.

Lemma tidy_new (models : list ITextModel.t) :
  NoDup (ITextModel.uri <$> models) -> tidy (TextMateService.new models).
Proof.
  intros Hnd. rewrite new_service_unfold. unfold tidy, covered; cbn.
  split_and!; try done; try apply NoDup_nil_2;
    intros; by match goal with H : _ ∈ [] |- _ => apply elem_of_nil in H end.
Qed.

Lemma tidy_run toggle (models : list ITextModel.t) evs :
  NoDup (ITextModel.uri <$> models) -> tidy (run toggle (TextMateService.new models) evs).
Proof.
  intros H%tidy_new. revert H. generalize (TextMateService.new models).
  induction evs as [|ev evs IH]; intros s H; cbn; [done|].
  by apply IH, tidy_step.
Qed.

(** C6: [_killWorker] disposes every synchroniser registered in the map,
  each once: each sends its removal, in the order of the map, and has its
  listeners released, and no other synchroniser is touched; the map is
  left empty; the worker, if there is one, is disposed after the
  removals; the worker reference and the proxy reference are cleared.
  Without a worker nothing is disposed and the worker reference stays
  empty. In every state the event loop reaches, the entries of the map
  refer to stored synchronisers, each to its own, and every synchroniser
  that still listens is among them, so that after [_killWorker] no
  synchroniser listens any more. *)
Theorem C6_killWorker_disposes_every_synchroniser :
  (forall s,
     registered s ->
     let s' := _killWorker s in
     _tokenizers s' = [] /\ _worker s' = None /\ _workerProxy s' = None
     /\ log s' =
          log s ++ concat (removal (objects s) <$> (_tokenizers s).*2)
                ++ match _worker s with Some worker => [worker_dispose worker] | None => [] end
     /\ (forall key i, (key, i) ∈ _tokenizers s ->
           exists self,
             objects s !! i = Some self
             /\ removal (objects s) i =
                  [call (ModelWorkerTextMateTokenizer._worker self)
                        (acceptRemovedModel (ModelWorkerTextMateTokenizer.model_uri self))]
             /\ objects s' !! i = Some (ModelWorkerTextMateTokenizer.super_dispose self))
     /\ (forall i, i ∉ (_tokenizers s).*2 -> objects s' !! i = objects s !! i)
     /\ (_worker s = None ->
           log s' = log s ++ concat (removal (objects s) <$> (_tokenizers s).*2)))
  /\ (forall toggle (models : list ITextModel.t) evs,
       NoDup (ITextModel.uri <$> models) ->
       let s := run toggle (TextMateService.new models) evs in
       registered s /\ covered s
       /\ forall i self l,
            objects (_killWorker s) !! i = Some self ->
            ModelWorkerTextMateTokenizer.listens l self = false).
Proof.
  split.
  - intros s [Hreg _].
    destruct (killWorker_spec s) as (Hw & Hp & Ht & _ & _ & _ & _ & Hl & _ & Hin & Hout).
    cbv zeta. split_and!; try done.
    + intros key i Hi.
      rewrite Forall_forall in Hreg. pose proof (Hreg _ Hi) as Hlt; cbn in Hlt.
      destruct (lookup_lt_is_Some_2 _ _ Hlt) as [self Hself].
      exists self. split_and!; [done| |].
      * unfold removal. by rewrite Hself.
      * rewrite Hin, Hself; [done|].
        apply list_elem_of_fmap. by exists (key, i).
    + intros Hnone. by rewrite Hl, Hnone, app_nil_r.
  - intros toggle models evs Hnd. cbv zeta.
    destruct (tidy_run toggle models evs Hnd) as (_ & _ & _ & _ & _ & Hc).
    split_and!; [apply registered_run|done|].
    intros i self l. by apply killWorker_silences.
Qed.

Lemma C6_witness :
  log (_killWorker sample_service) =
    log sample_service ++
      [call 0 (acceptRemovedModel "file:///a.ts");
       call 0 (acceptRemovedModel "file:///b.ts");
       worker_dispose 0]
  /\ covered sample_service.
Proof.
  assert (registered sample_service) as H.
  { vm_compute. split.
    - repeat (apply Forall_cons; split; [lia|]). apply Forall_nil_2.
    - apply (bool_decide_unpack _). by vm_compute. }
  assert (NoDup (ITextModel.uri <$> [sample_model; sample_detached])) as Hnd.
  { apply (bool_decide_unpack _). by vm_compute. }
  split.
  - pose proof (proj1 (proj2 (proj2 (proj2
          (proj1 C6_killWorker_disposes_every_synchroniser sample_service H))))) as Hl.
    vm_compute in Hl. vm_compute. exact Hl.
  - exact (proj1 (proj2 (proj2 C6_killWorker_disposes_every_synchroniser true
                [sample_model; sample_detached]
                [grammarFactoryCreated []; proxyResolved 0] Hnd))).
Defined.

Lemma keys_forEach_fresh proxy (models : list ITextModel.t) s :
  _workerProxy s = Some proxy ->
  NoDup (ITextModel.uri <$> models) ->
  (forall m, m ∈ models -> ITextModel.uri m ∉ JsObject.keys (_tokenizers s)) ->
  JsObject.keys (_tokenizers (foldl (fun s model => _onModelAdded model s) s models))
  = JsObject.keys (_tokenizers s) ++ (ITextModel.uri <$> List.filter syncable models).
Proof.
  revert s. induction models as [|m models IH]; intros s Hp Hu Hfresh;
    cbn [foldl List.filter]; [by rewrite app_nil_r|].
  cbn in Hu. apply NoDup_cons in Hu as [Hm Hu].
  assert (forall m', m' ∈ models ->
            ITextModel.uri m' ∉ JsObject.keys (_tokenizers (_onModelAdded m s))) as Hfresh'.
  { intros m' Hm' [E|Hk]%keys_onModelAdded.
    - apply Hm. rewrite <- E. apply list_elem_of_fmap. by exists m'.
    - revert Hk. apply Hfresh. by right. }
  destruct (frame_onModelAdded m s) as (_ & Ep & _). rewrite Hp in Ep.
  rewrite (IH _ Ep Hu Hfresh').
  unfold syncable at 2. destruct (ITextModel.isTooLargeForSyncing m) eqn:Em; cbn.
  - by rewrite onModelAdded_ignored by tauto.
  - rewrite (onModelAdded_unfold proxy) by done. cbn.
    rewrite JsObject_set_fresh by (apply Hfresh; by left).
    unfold JsObject.keys. rewrite fmap_app, <- app_assoc. done.
Qed.

(** C5 (amended): when the promise of [getProxy()] resolves for a worker
  that is no longer the live one, the callback changes nothing: no
  synchroniser is created, the map and the proxy reference are as before,
  nothing is sent. When the worker is still the live one, the callback
  sets the proxy and creates one synchroniser for each buffer the model
  service knows that is not oversized, attached or not, in the order of
  [getModels()], and for no other buffer; each is registered under the URI
  of its buffer, and what is sent is the snapshot of each attached one.
  In every state the event loop reaches, a live worker whose promise is
  pending has no proxy and an empty map, so that after the callback the
  keys of the map are the URIs of the buffers that are not oversized. *)
Theorem C5_proxy_resolution :
  (forall worker s,
     let s' := getProxy_then worker s in
     let added := List.filter syncable (_modelService s) in
     (_worker s <> Some worker -> s' = s)
     /\ (_worker s = Some worker ->
         _worker s' = Some worker /\ _workerProxy s' = Some worker
         /\ objects s' =
              objects s ++ ((fun m => (ModelWorkerTextMateTokenizer.new worker m).1) <$> added)
         /\ log s' =
              log s ++ concat ((fun m => call worker <$> constructor_calls m) <$> added)
         /\ (forall key, key ∈ JsObject.keys (_tokenizers s') <->
               key ∈ JsObject.keys (_tokenizers s) \/ key ∈ ITextModel.uri <$> added)
         /\ (forall key, key ∈ ITextModel.uri <$> added ->
               exists i self,
                 JsObject.get key (_tokenizers s') = Some i
                 /\ length (objects s) <= i
                 /\ objects s' !! i = Some self
                 /\ ModelWorkerTextMateTokenizer.model_uri self = key)))
  /\ (forall toggle (models : list ITextModel.t) evs worker,
       NoDup (ITextModel.uri <$> models) ->
       let s := run toggle (TextMateService.new models) evs in
       worker ∈ pending s -> _worker s = Some worker ->
       _workerProxy s = None /\ _tokenizers s = []
       /\ JsObject.keys (_tokenizers (getProxy_then worker s))
          = ITextModel.uri <$> List.filter syncable (_modelService s)).
Proof.
  split.
  - intros worker s. cbv zeta. unfold getProxy_then. split.
    + intros Hne. by rewrite bool_decide_eq_true_2.
    + intros Hw. rewrite bool_decide_eq_false_2 by (by intros ?).
      unfold forEach_onModelAdded.
      destruct (forEach_onModelAdded_spec worker
                  (_modelService (set_workerProxy (Some worker) s))
                  (set_workerProxy (Some worker) s) eq_refl)
        as (Ew & Ep & _ & _ & _ & _ & Eo & El & Hk & Hnew & _).
      cbn in *. rewrite Ew, Ep, El.
      split_and!; try done.
      do 2 f_equal. apply list_fmap_ext. intros _ m _.
      by rewrite new_unfold.
  - intros toggle models evs worker Hnd. cbv zeta.
    pose proof (tidy_run toggle models evs Hnd) as (T1 & _ & _ & T4 & T5 & _).
    remember (run toggle (TextMateService.new models) evs) as s eqn:Es.
    intros Hin Hw.
    pose proof (T5 worker Hin Hw) as Hp. pose proof (T4 Hp) as Ht.
    split_and!; [done|done|].
    unfold getProxy_then, forEach_onModelAdded.
    rewrite bool_decide_eq_false_2 by (by intros ?).
    rewrite (keys_forEach_fresh worker); cbn; rewrite ?Ht; try done.
    intros m _. apply not_elem_of_nil.
Qed.

Lemma C5_witness :
  getProxy_then 0 sample_respawned = sample_respawned
  /\ _workerProxy (getProxy_then 0 sample_spawned) = Some 0
  /\ JsObject.keys (_tokenizers (getProxy_then 0 sample_spawned)) = ["file:///b.ts"].
Proof.
  split_and!.
  - apply (proj1 C5_proxy_resolution 0 sample_respawned). vm_compute. discriminate.
  - apply (proj1 C5_proxy_resolution 0 sample_spawned). reflexivity.
  - apply (proj2 C5_proxy_resolution true [sample_detached; sample_oversized]
             [grammarFactoryCreated []] 0).
    + apply (bool_decide_unpack _). by vm_compute.
    + apply (bool_decide_unpack _). by vm_compute.
    + reflexivity.
Defined.

End Manager.

(** * Further properties of the code *)

(** ** The synchroniser over its lifetime *)

Section SynchroniserLifetime.

Import ModelWorkerTextMateTokenizer.

Implicit Types (self : ModelWorkerTextMateTokenizer.t) (m : ITextModel.t)
  (ev : ModelEvent) (s : Session.t).

Lemma run_model_ref s evs :
  _model (Session.tokenizer (Session.run s evs)) = _model (Session.tokenizer s).
Proof.
  induction evs as [|ev evs IH] using rev_ind; [done|].
  rewrite run_snoc, step_unfold; cbn. rewrite <- IH. apply fire_frame.
Qed.

Lemma run_languageChanges s ls :
  listens onDidChangeLanguage (Session.tokenizer s) = true ->
  Session.tokenizer (Session.run s (languageChanges ls)) = Session.tokenizer s
  /\ Session.sent (Session.run s (languageChanges ls)) =
      Session.sent s ++
        (if _isSynced (Session.tokenizer s)
         then (fun l => acceptModelLanguageChanged (model_uri (Session.tokenizer s))
                          (LanguageIdentifier.id l)) <$> ls
         else []).
Proof.
  intros Hl. induction ls as [|l ls IH] using rev_ind.
  - cbn. by destruct (_isSynced _); rewrite app_nil_r.
  - unfold languageChanges. rewrite fmap_app. cbn [fmap list_fmap].
    fold (languageChanges ls). rewrite run_snoc, step_unfold; cbn.
    destruct IH as [-> ->].
    unfold fire; cbn. rewrite Hl. unfold _onDidChangeLanguage.
    destruct (_isSynced (Session.tokenizer s)); cbn.
    + split; [done|]. by rewrite fmap_app, app_assoc.
    + split; [done|]. by rewrite !app_nil_r.
Qed.

(** Language changes (lines 47-51): while the flag [_isSynced] is clear a
  run of language changes sends nothing; while it is set each change sends
  one [acceptModelLanguageChanged] with the identifier of the language the
  buffer has after the change, in order; the synchroniser is unchanged. *)
Theorem X_language_changes_forwarded_iff_synced s ls :
  listens onDidChangeLanguage (Session.tokenizer s) = true ->
  let s' := Session.run s (languageChanges ls) in
  Session.tokenizer s' = Session.tokenizer s
  /\ (_isSynced (Session.tokenizer s) = false -> Session.sent s' = Session.sent s)
  /\ (_isSynced (Session.tokenizer s) = true ->
      Session.sent s' =
        Session.sent s ++
          ((fun l => acceptModelLanguageChanged (model_uri (Session.tokenizer s))
                       (LanguageIdentifier.id l)) <$> ls)).
Proof.
  intros Hl. destruct (run_languageChanges s ls Hl) as [Ht Hs].
  cbn. split; [done|]. rewrite Hs.
  split; intros ->; [by rewrite app_nil_r | done].
Qed.

Lemma X_language_changes_witness :
  Session.sent
    (Session.run (Session.start 0 sample_model)
       (languageChanges [LanguageIdentifier.mk "json" 7; sample_language]))
  = [snapshot sample_model;
     acceptModelLanguageChanged "file:///a.ts" 7;
     acceptModelLanguageChanged "file:///a.ts" 3]
  /\ Session.sent
       (Session.run (Session.start 0 sample_detached)
          (languageChanges [LanguageIdentifier.mk "json" 7]))
     = [].
Proof.
  split.
  - apply (X_language_changes_forwarded_iff_synced (Session.start 0 sample_model)
             [LanguageIdentifier.mk "json" 7; sample_language]);
      reflexivity.
  - apply (X_language_changes_forwarded_iff_synced (Session.start 0 sample_detached)
             [LanguageIdentifier.mk "json" 7]);
      reflexivity.
Defined.

Lemma fire_synced_sends_no_snapshot ev m self :
  _isSynced self = true -> forallb (fun c => negb (is_snapshot c)) (fire ev m self).2 = true.
Proof.
  intros H. unfold fire. destruct (listens (emitter ev) self); [|done].
  destruct ev; cbn;
    unfold _onDidChangeAttached, _onDidChangeContent, _onDidChangeLanguage;
    rewrite H; cbn;
    repeat match goal with |- context [if ?b then _ else _] => destruct b end;
    done.
Qed.

Lemma fire_unsynced_cases ev m self :
  _isSynced self = false ->
  fire ev m self = (self, [])
  \/ exists data, fire ev m self = (set_isSynced true self, [acceptNewModel data]).
Proof.
  intros H. unfold fire. destruct (listens (emitter ev) self); [|by left].
  destruct ev; cbn;
    unfold _onDidChangeAttached, _onDidChangeContent, _onDidChangeLanguage,
      _beginSync, ret;
    rewrite H; cbn; try (by left).
  destruct (ITextModel.isAttachedToEditor m); [right; by eexists | by left].
Qed.

(** The snapshot comes first and comes once (lines 54-75): whatever
  notifications a synchroniser receives after its construction, either it
  has sent nothing and its flag is clear, or its flag is set and the first
  call it sent is a snapshot and no later call is. No edit and no language
  change precedes the snapshot, and a synchroniser never sends a second
  snapshot. *)
Theorem X_snapshot_first_and_once worker m evs :
  let s := Session.run (Session.start worker m) evs in
  (_isSynced (Session.tokenizer s) = false /\ Session.sent s = [])
  \/ (_isSynced (Session.tokenizer s) = true
      /\ exists data rest,
           Session.sent s = acceptNewModel data :: rest
           /\ forallb (fun c => negb (is_snapshot c)) rest = true).
Proof.
  cbv zeta. induction evs as [|ev evs IH] using rev_ind.
  - cbn. rewrite start_unfold, new_unfold; cbn.
    destruct (ITextModel.isAttachedToEditor m); [right|left]; [|done].
    split; [done|]. by eexists _, [].
  - rewrite run_snoc, step_unfold; cbn.
    set (s := Session.run (Session.start worker m) evs) in *.
    destruct IH as [[Hs Hsent]|[Hs (data & rest & Hsent & Hrest)]].
    + rewrite Hsent; cbn.
      destruct (fire_unsynced_cases ev (mutate ev (Session.model s))
                  (Session.tokenizer s) Hs) as [->|[data ->]]; cbn.
      * by left.
      * right. split; [done|]. by eexists _, [].
    + right. split; [by apply fire_keeps_synced|].
      rewrite Hsent. eexists data, _. split; [reflexivity|].
      rewrite forallb_app, Hrest. by apply fire_synced_sends_no_snapshot.
Qed.

(** A synchroniser speaks only about its own buffer: every call it sends,
  at construction, on any notification, and at disposal, carries the URI
  of the buffer it was constructed on. *)
Theorem X_calls_carry_own_uri worker m evs c :
  c ∈ Session.sent (Session.dispose (Session.run (Session.start worker m) evs)) ->
  call_uri c = ITextModel.uri m.
Proof.
  assert (forall c, c ∈ Session.sent (Session.run (Session.start worker m) evs) ->
            call_uri c = ITextModel.uri m) as Hrun.
  { clear c. induction evs as [|ev evs IH] using rev_ind; intros c.
    - cbn. rewrite start_unfold; cbn. apply new_calls_uri.
    - rewrite run_snoc, step_unfold; cbn.
      intros [H|H]%elem_of_app; [by apply IH|].
      apply fire_calls_uri in H. rewrite H. unfold model_uri.
      rewrite run_model_ref, start_unfold, new_unfold. done. }
  unfold Session.dispose.
  pose proof (run_model_ref (Session.start worker m) evs) as Hm.
  destruct (Session.run (Session.start worker m) evs) as [m' self sent]; cbn in *.
  intros [H|H]%elem_of_app; [by apply Hrun|].
  apply list_elem_of_singleton in H as ->. cbn. unfold model_uri; cbn.
  rewrite Hm, start_unfold, new_unfold. done.
Qed.

Lemma X_calls_carry_own_uri_witness :
  call_uri (acceptRemovedModel "file:///a.ts") = ITextModel.uri sample_model.
Proof.
  apply (X_calls_carry_own_uri 0 sample_model [changeContent sample_edit ["a"]]).
  vm_compute. do 2 apply list_elem_of_further. apply list_elem_of_here.
Defined.

(** Disposal ends the reactions (lines 81-84): after [dispose], whatever
  notifications the buffer fires, the synchroniser sends nothing more and
  does not change. *)
Theorem X_disposed_synchroniser_is_silent s evs :
  let d := Session.dispose s in
  Session.sent (Session.run d evs) = Session.sent d
  /\ Session.tokenizer (Session.run d evs) = Session.tokenizer d.
Proof.
  cbv zeta. remember (Session.dispose s) as d eqn:Ed.
  assert (forall ev m, fire ev m (Session.tokenizer d) = (Session.tokenizer d, [])) as Hf.
  { subst d. unfold Session.dispose. cbn. intros ev m. unfold fire. by destruct ev. }
  induction evs as [|ev evs [IHs IHt]] using rev_ind; [done|].
  rewrite run_snoc, step_unfold. cbn [Session.sent Session.tokenizer].
  rewrite IHt, Hf, IHs. cbn. by rewrite app_nil_r.
Qed.

End SynchroniserLifetime.

(** ** The manager over its lifetime *)

Section ManagerLifetime.

Import TextMateService.

Implicit Types (s : TextMateService.t) (m model : ITextModel.t)
  (o : JsObject.t) (key : string) (i : nat).

Lemma JsObject_get_delete_eq key o : JsObject.get key (JsObject.delete key o) = None.
Proof.
  induction o as [|[k x] o IH]; cbn; [done|].
  destruct (String.eqb k key) eqn:E; cbn; [done|]. by rewrite E.
Qed.

Lemma JsObject_get_delete_ne key key' o :
  key <> key' -> JsObject.get key' (JsObject.delete key o) = JsObject.get key' o.
Proof.
  intros Hne. induction o as [|[k x] o IH]; cbn; [done|].
  destruct (String.eqb_spec k key) as [->|]; cbn.
  - destruct (String.eqb_spec key key'); done.
  - by rewrite IH.
Qed.

Lemma JsObject_delete_fresh key o :
  key ∉ JsObject.keys o -> JsObject.delete key o = o.
Proof.
  unfold JsObject.keys. induction o as [|[k x] o IH]; cbn; [done|].
  rewrite not_elem_of_cons. intros [Hne Hk].
  destruct (String.eqb_spec k key); [congruence|]. by rewrite IH.
Qed.

Lemma JsObject_delete_app key o o' :
  JsObject.delete key (o ++ o') = JsObject.delete key o ++ JsObject.delete key o'.
Proof.
  induction o as [|[k x] o IH]; cbn; [done|].
  destruct (String.eqb k key); cbn; by rewrite IH.
Qed.

Lemma JsObject_elem_set key v o k i :
  (k, i) ∈ JsObject.set key v o -> (k, i) = (key, v) \/ (k, i) ∈ o.
Proof.
  induction o as [|[k0 y] o IH]; cbn.
  - rewrite list_elem_of_singleton. tauto.
  - destruct (String.eqb_spec k0 key) as [->|]; rewrite !elem_of_cons; tauto.
Qed.

Lemma JsObject_elem_delete key o k i :
  (k, i) ∈ JsObject.delete key o -> (k, i) ∈ o.
Proof.
  induction o as [|[k0 y] o IH]; cbn; [done|].
  destruct (String.eqb k0 key); rewrite !elem_of_cons; tauto.
Qed.

(** Buffer removed (lines 135-141): without an entry for the buffer's URI
  the manager is unchanged; with one, the synchroniser it refers to is
  disposed (one removal to its own worker, listeners released), the entry
  is deleted, and the entries under other keys, the worker and the proxy
  are as before. *)
Theorem X_onModelRemoved_disposes_and_unregisters model s :
  (JsObject.get (ITextModel.uri model) (_tokenizers s) = None ->
     _onModelRemoved model s = s)
  /\ (forall i self,
       JsObject.get (ITextModel.uri model) (_tokenizers s) = Some i ->
       objects s !! i = Some self ->
       let s' := _onModelRemoved model s in
       log s' =
         log s ++ [call (ModelWorkerTextMateTokenizer._worker self)
                        (acceptRemovedModel (ModelWorkerTextMateTokenizer.model_uri self))]
       /\ objects s' = <[i := ModelWorkerTextMateTokenizer.super_dispose self]> (objects s)
       /\ JsObject.get (ITextModel.uri model) (_tokenizers s') = None
       /\ (forall key, key <> ITextModel.uri model ->
             JsObject.get key (_tokenizers s') = JsObject.get key (_tokenizers s))
       /\ _worker s' = _worker s /\ _workerProxy s' = _workerProxy s).
Proof.
  split.
  - intros Hg. unfold _onModelRemoved. by rewrite Hg.
  - intros i self Hg Hi. cbv zeta. unfold _onModelRemoved. rewrite Hg.
    rewrite tokenizer_dispose_unfold. cbn. unfold removal. rewrite Hi.
    rewrite (list_insert_as_alter _ _ _ _ Hi).
    split_and!; try done.
    + apply JsObject_get_delete_eq.
    + intros key Hne. by apply JsObject_get_delete_ne.
Qed.

Lemma X_onModelRemoved_witness :
  _onModelRemoved sample_added sample_service = sample_service
  /\ JsObject.get "file:///a.ts" (_tokenizers (_onModelRemoved sample_model sample_service))
     = None.
Proof.
  split.
  - apply (proj1 (X_onModelRemoved_disposes_and_unregisters sample_added sample_service)).
    reflexivity.
  - apply (proj2 (X_onModelRemoved_disposes_and_unregisters sample_model sample_service)
             0 (ModelWorkerTextMateTokenizer.new 0 sample_model).1);
      reflexivity.
Defined.

(** Adding a buffer and removing it again (lines 123-141): for a buffer
  that is not oversized and has no entry yet, while a proxy is set, the map
  is afterwards as it was before; what was sent in between is the calls of
  the constructor followed by one removal, all to the proxy; the
  synchroniser created in between stays in the store, disposed. *)
Theorem X_added_then_removed model proxy s :
  _workerProxy s = Some proxy ->
  ITextModel.isTooLargeForSyncing model = false ->
  JsObject.get (ITextModel.uri model) (_tokenizers s) = None ->
  let s' := _onModelRemoved model (_onModelAdded model s) in
  _tokenizers s' = _tokenizers s
  /\ log s' =
      log s ++ (call proxy <$> constructor_calls model)
            ++ [call proxy (acceptRemovedModel (ITextModel.uri model))]
  /\ objects s' =
      objects s ++ [ModelWorkerTextMateTokenizer.super_dispose
                      (ModelWorkerTextMateTokenizer.new proxy model).1]
  /\ _worker s' = _worker s /\ _workerProxy s' = _workerProxy s.
Proof.
  intros Hp Hm Hg. cbv zeta.
  apply JsObject_get_None in Hg.
  rewrite (onModelAdded_unfold proxy) by done.
  unfold _onModelRemoved. cbn. rewrite JsObject_get_set_eq.
  rewrite tokenizer_dispose_unfold. cbn.
  rewrite JsObject_set_fresh, JsObject_delete_app, JsObject_delete_fresh by done.
  cbn. rewrite String.eqb_refl, app_nil_r.
  unfold removal. rewrite lookup_app_r, Nat.sub_diag by done. cbn.
  rewrite new_unfold; cbn. unfold ModelWorkerTextMateTokenizer.model_uri; cbn.
  split_and!; try done.
  - by rewrite <- app_assoc.
  - rewrite <- (Nat.add_0_r (length (objects s))) at 1. by rewrite alter_app_r.
Qed.

Lemma X_added_then_removed_witness :
  _tokenizers (_onModelRemoved sample_added (_onModelAdded sample_added sample_service))
  = _tokenizers sample_service.
Proof.
  apply (X_added_then_removed sample_added 0 sample_service); reflexivity.
Defined.

(** Killing twice is killing once (lines 181-192): a second [_killWorker]
  finds no synchroniser and no worker, sends nothing and changes nothing. *)
Theorem X_killWorker_twice s : _killWorker (_killWorker s) = _killWorker s.
Proof.
  destruct (killWorker_spec s) as (Hw & Hp & Ht & _).
  remember (_killWorker s) as killed eqn:Ek. clear Ek.
  unfold _killWorker. rewrite Ht. cbn. rewrite Hw.
  destruct killed; cbn in *; by subst.
Qed.

(** Construction and catch-up (lines 105-121, 151-173): the constructor
  leaves the manager idle whatever buffers the registry already knows,
  attached ones included; once a grammar set is created with the toggle on
  and the promise of the worker resolves, the buffers known before are
  covered: the map has one entry for each that is not oversized, in the
  order of [getModels()], and after the creation of the worker the log
  holds the snapshots of the attached ones among them. *)
Theorem X_constructor_then_catch_up (models : list ITextModel.t) defs :
  let s0 := TextMateService.new models in
  idle s0 /\ _modelService s0 = models
  /\ (NoDup (ITextModel.uri <$> models) ->
      let s := run true s0 [grammarFactoryCreated defs; proxyResolved 0] in
      let added := List.filter syncable models in
      _worker s = Some 0 /\ _workerProxy s = Some 0
      /\ JsObject.keys (_tokenizers s) = ITextModel.uri <$> added
      /\ objects s = (fun m => (ModelWorkerTextMateTokenizer.new 0 m).1) <$> added
      /\ log s =
           createWebWorker 0 defs
             :: concat ((fun m => call 0 <$> constructor_calls m) <$> added)).
Proof.
  cbv zeta. rewrite new_service_unfold. split; [done|]. split; [done|].
  intros Hnd.
  set (s2 := {| _worker := Some 0; _workerProxy := Some 0; _tokenizers := [];
                _modelService := models; objects := [];
                log := [createWebWorker 0 defs]; nextWorker := 1;
                nextModel := S (foldr max 0 (ITextModel.id <$> models));
                pending := [] |}).
  match goal with
  | |- context [run true ?s0 ?evs] =>
      assert (run true s0 evs = foldl (fun s model => _onModelAdded model s) s2 models)
        as -> by reflexivity
  end.
  destruct (forEach_onModelAdded_spec 0 models s2 eq_refl)
    as (Ew & Ep & _ & _ & _ & _ & Eo & El & _).
  pose proof (keys_forEach_fresh 0 models s2 eq_refl Hnd) as Ek.
  cbn in *. rewrite Ew, Ep, Eo, El, Ek.
  - split_and!; try done.
    do 2 f_equal. apply list_fmap_ext. intros _ m _. by rewrite new_unfold.
  - intros m _. apply not_elem_of_nil.
Qed.

Lemma X_constructor_then_catch_up_witness :
  JsObject.keys
    (_tokenizers
       (run true (TextMateService.new [sample_model; sample_oversized; sample_detached])
          [grammarFactoryCreated []; proxyResolved 0]))
  = ["file:///a.ts"; "file:///b.ts"].
Proof.
  apply (X_constructor_then_catch_up [sample_model; sample_oversized; sample_detached] []).
  apply (bool_decide_unpack _). by vm_compute.
Defined.

Lemma idle_step s ev : idle s -> idle (step RUN_TEXTMATE_IN_WORKER s ev).
Proof.
  intros (Hw & Hp & Ht & Ho & Hl & Hpe).
  destruct ev as [model|u|u ev|defs| |worker]; cbn [step].
  - case_bool_decide; [done|]. by rewrite onModelAdded_ignored by (by left).
  - destruct (getModel _ _); [|done].
    unfold _onModelRemoved. cbn. by rewrite Ht.
  - destruct (getModel _ _); [|done]. rewrite Ho. cbn.
    unfold idle. cbn. by rewrite Hl.
  - unfold _onDidCreateGrammarFactory, RUN_TEXTMATE_IN_WORKER.
    destruct (killWorker_spec s)
      as (Hw' & Hp' & Ht' & _ & _ & _ & Hpe' & Hl' & Hlen & _).
    rewrite Ht, Hw, Hl in Hl'. rewrite Ho in Hlen. rewrite Hpe in Hpe'.
    unfold idle. split_and!; try done. by apply nil_length_inv.
  - unfold _onDidDisposeGrammarFactory.
    destruct (killWorker_spec s)
      as (Hw' & Hp' & Ht' & _ & _ & _ & Hpe' & Hl' & Hlen & _).
    rewrite Ht, Hw, Hl in Hl'. rewrite Ho in Hlen. rewrite Hpe in Hpe'.
    unfold idle. split_and!; try done. by apply nil_length_inv.
  - rewrite Hpe. by rewrite bool_decide_eq_false_2 by apply not_elem_of_nil.
Qed.

(** With the toggle as the source has it (line 24), the manager stays idle
  for ever: whatever buffers are added, removed, attached or edited and
  whatever grammar sets are created or disposed, no worker is created, no
  synchroniser is constructed and nothing is sent. *)
Theorem X_toggle_off_manager_stays_idle (models : list ITextModel.t) evs :
  idle (run RUN_TEXTMATE_IN_WORKER (TextMateService.new models) evs).
Proof.
  assert (idle (TextMateService.new models)) as H
    by (by rewrite new_service_unfold).
  revert H. generalize (TextMateService.new models).
  induction evs as [|ev evs IH]; intros s H; cbn; [done|].
  by apply IH, idle_step.
Qed.

Lemma notify_lookup_frame ev m (os : list ModelWorkerTextMateTokenizer.t) i self' :
  (notify ev m os).1 !! i = Some self' ->
  exists self, os !! i = Some self
    /\ ModelWorkerTextMateTokenizer._worker self' = ModelWorkerTextMateTokenizer._worker self
    /\ ModelWorkerTextMateTokenizer._model self' = ModelWorkerTextMateTokenizer._model self.
Proof.
  revert i. induction os as [|self os IH]; intros i; cbn; [done|].
  destruct (notify ev m os) as [rest' effects]; cbn in *.
  set (r := if Nat.eqb _ _ then fire ev m self else ModelWorkerTextMateTokenizer.ret self).
  assert (ModelWorkerTextMateTokenizer._worker r.1 = ModelWorkerTextMateTokenizer._worker self
          /\ ModelWorkerTextMateTokenizer._model r.1 = ModelWorkerTextMateTokenizer._model self)
    as Hr.
  { subst r. destruct (Nat.eqb _ _); [apply fire_frame|done]. }
  destruct r as [self1 calls]; cbn in *.
  destruct i as [|i]; cbn.
  - intros [= <-]. by exists self.
  - apply IH.
Qed.

Lemma JsObject_get_Some_elem key o i : JsObject.get key o = Some i -> (key, i) ∈ o.
Proof.
  induction o as [|[k x] o IH]; cbn; [done|].
  destruct (String.eqb_spec k key) as [->|].
  - intros [= ->]. by left.
  - intros ?. right. by apply IH.
Qed.

Lemma JsObject_NoDup_keys_inj o key i j :
  NoDup (JsObject.keys o) -> (key, i) ∈ o -> (key, j) ∈ o -> i = j.
Proof.
  unfold JsObject.keys. induction o as [|[k x] o IH]; cbn; [by intros _ ?%elem_of_nil|].
  rewrite NoDup_cons. intros [Hk Ho] [E1|H1]%elem_of_cons [E2|H2]%elem_of_cons.
  - congruence.
  - injection E1 as -> ->. destruct Hk. apply list_elem_of_fmap. by exists (k, j).
  - injection E2 as -> ->. destruct Hk. apply list_elem_of_fmap. by exists (k, i).
  - by apply IH.
Qed.

(** *** The proxy in use is the live worker's *)

Lemma current_onModelAdded model s : current s -> current (_onModelAdded model s).
Proof.
  intros H.
  destruct (_workerProxy s) as [proxy|] eqn:Ep;
    [|by rewrite onModelAdded_ignored by tauto].
  destruct (ITextModel.isTooLargeForSyncing model) eqn:Em;
    [by rewrite onModelAdded_ignored by (right; done)|].
  rewrite (onModelAdded_unfold proxy) by done.
  destruct H as [P1 P2].
  split; cbn; [done|]. rewrite Ep.
  intros key i self Hin Hi.
  apply lookup_app_Some in Hi as [Hi|[Hlen Hi]].
  - apply JsObject_elem_set in Hin as [[= -> ->]|Hin];
      [|rewrite <- Ep; by eapply P2].
    apply lookup_lt_Some in Hi. lia.
  - apply list_lookup_singleton_Some in Hi as [_ <-]. by rewrite new_unfold.
Qed.

Lemma current_forEach (models : list ITextModel.t) s :
  current s -> current (foldl (fun s model => _onModelAdded model s) s models).
Proof.
  revert s. induction models as [|m models IH]; intros s H; cbn; [done|].
  by apply IH, current_onModelAdded.
Qed.

Lemma current_onModelRemoved model s : current s -> current (_onModelRemoved model s).
Proof.
  intros [P1 P2]. unfold _onModelRemoved.
  destruct (JsObject.get _ _) as [i|]; [|done].
  rewrite tokenizer_dispose_unfold. split; cbn; [done|].
  intros key j self' Hin%JsObject_elem_delete Hj.
  destruct (decide (i = j)) as [->|Hne].
  - rewrite list_lookup_alter_eq in Hj.
    destruct (objects s !! j) as [self|] eqn:E; [|done].
    injection Hj as <-. by apply (P2 key j self).
  - rewrite list_lookup_alter_ne in Hj by done. by eapply P2.
Qed.

Lemma current_killWorker s : current (_killWorker s).
Proof.
  destruct (killWorker_spec s) as (Hw & Hp & Ht & _).
  split; [by rewrite Hp|]. rewrite Ht. by intros ? ? ? ?%elem_of_nil.
Qed.

Lemma current_step toggle s ev : current s -> current (step toggle s ev).
Proof.
  intros H. destruct ev as [model|u|u ev|defs| |worker]; cbn [step].
  - case_bool_decide; [done|]. by apply current_onModelAdded.
  - destruct (getModel _ _); [|done]. by apply current_onModelRemoved.
  - destruct (getModel u (_modelService s)) as [model|]; [|done].
    pose proof (notify_lookup_frame ev (mutate ev model) (objects s)) as Hn.
    destruct (notify _ _ _) as [objects' effects]. cbn in Hn.
    destruct H as [P1 P2]. split; cbn; [done|].
    intros key i self' Hin (self & Hi & Ew & _)%Hn. rewrite Ew. by eapply P2.
  - pose proof (current_killWorker s) as [P1 P2].
    destruct (killWorker_spec s) as (Hw & Hp & Ht & _).
    unfold _onDidCreateGrammarFactory.
    remember (_killWorker s) as killed eqn:Ek.
    destruct toggle; [|done]. split; cbn; [by rewrite Hp|done].
  - apply current_killWorker.
  - case_bool_decide; [|done].
    unfold getProxy_then, forEach_onModelAdded. case_bool_decide as Hlive; [done|].
    cbn in Hlive. apply current_forEach.
    destruct H as [P1 P2]. split; cbn.
    + by intros proxy [= <-].
    + intros key i self Hin Hi. pose proof (P2 key i self Hin Hi) as Hp.
      apply P1 in Hp. congruence.
Qed.

(** No registered synchroniser talks to a dead worker: in every state the
  event loop reaches, for either value of the toggle, a proxy that is set
  is the proxy of the live worker (lines 165-171, 187-191), and every
  synchroniser the map refers to sends to that proxy (line 131). *)
Theorem X_registered_synchronisers_use_live_proxy toggle (models : list ITextModel.t) evs :
  let s := run toggle (TextMateService.new models) evs in
  (forall proxy, _workerProxy s = Some proxy -> _worker s = Some proxy)
  /\ (forall key i self,
        (key, i) ∈ _tokenizers s -> objects s !! i = Some self ->
        _workerProxy s = Some (ModelWorkerTextMateTokenizer._worker self)
        /\ _worker s = Some (ModelWorkerTextMateTokenizer._worker self)).
Proof.
  cbv zeta.
  assert (current (run toggle (TextMateService.new models) evs)) as [P1 P2].
  { assert (current (TextMateService.new models)) as H.
    { rewrite new_service_unfold. split; cbn; [done|]. by intros ? ? ? ?%elem_of_nil. }
    revert H. generalize (TextMateService.new models).
    induction evs as [|ev evs IH]; intros s H; cbn; [done|].
    by apply IH, current_step. }
  split; [done|]. intros key i self Hin Hi.
  pose proof (P2 key i self Hin Hi) as Hp. split; [done|]. by apply P1.
Qed.

Lemma X_registered_synchronisers_use_live_proxy_witness :
  _workerProxy sample_respawned = Some 1 /\ _worker sample_respawned = Some 1.
Proof.
  apply (proj2 (X_registered_synchronisers_use_live_proxy true
                  [sample_model; sample_detached]
                  [grammarFactoryCreated []; grammarFactoryCreated []; proxyResolved 1])
           "file:///a.ts" 0 (ModelWorkerTextMateTokenizer.new 1 sample_model).1).
  - vm_compute. apply list_elem_of_here.
  - reflexivity.
Defined.

(** *** One listening synchroniser for a buffer *)

Lemma keyed_onModelAdded model s : keyed s -> keyed (_onModelAdded model s).
Proof.
  intros H.
  destruct (_workerProxy s) as [proxy|] eqn:Ep;
    [|by rewrite onModelAdded_ignored by tauto].
  destruct (ITextModel.isTooLargeForSyncing model) eqn:Em;
    [by rewrite onModelAdded_ignored by (right; done)|].
  rewrite (onModelAdded_unfold proxy) by done.
  intros key i. cbn. intros [[= -> ->]|Hin]%JsObject_elem_set.
  - eexists. split; [by rewrite lookup_app_r, Nat.sub_diag|apply new_model_uri].
  - destruct (H key i Hin) as (self & Hi & Hu).
    exists self. split; [by apply lookup_app_l_Some|done].
Qed.

Lemma keyed_forEach (models : list ITextModel.t) s :
  keyed s -> keyed (foldl (fun s model => _onModelAdded model s) s models).
Proof.
  revert s. induction models as [|m models IH]; intros s H; cbn; [done|].
  by apply IH, keyed_onModelAdded.
Qed.

Lemma keyed_onModelRemoved model s : keyed s -> keyed (_onModelRemoved model s).
Proof.
  intros H. unfold _onModelRemoved.
  destruct (JsObject.get _ _) as [i|]; [|done].
  rewrite tokenizer_dispose_unfold. intros key j. cbn.
  intros Hin%JsObject_elem_delete.
  destruct (H key j Hin) as (self & Hj & Hu).
  destruct (decide (i = j)) as [->|Hne].
  - exists (ModelWorkerTextMateTokenizer.super_dispose self).
    split; [by rewrite list_lookup_alter_eq, Hj|done].
  - exists self. split; [by rewrite list_lookup_alter_ne|done].
Qed.

Lemma keyed_step toggle s ev : keyed s -> keyed (step toggle s ev).
Proof.
  intros H. destruct ev as [model|u|u ev|defs| |worker]; cbn [step].
  - case_bool_decide; [done|]. by apply keyed_onModelAdded.
  - destruct (getModel _ _); [|done]. by apply keyed_onModelRemoved.
  - destruct (getModel u (_modelService s)) as [model|]; [|done].
    pose proof (notify_lookup_frame ev (mutate ev model) (objects s)) as Hn.
    destruct (notify_spec ev (mutate ev model) (objects s)) as (Hlen & _).
    destruct (notify _ _ _) as [objects' effects]. cbn in Hn, Hlen.
    intros key i. cbn. intros Hin.
    destruct (H key i Hin) as (self & Hi & Hu).
    destruct (lookup_lt_is_Some_2 objects' i) as [self' Hi'].
    { rewrite Hlen. by eapply lookup_lt_Some. }
    exists self'. split; [done|].
    destruct (Hn i self' Hi') as (self0 & Hi0 & _ & Em).
    unfold ModelWorkerTextMateTokenizer.model_uri in *. rewrite Em. congruence.
  - destruct (killWorker_spec s) as (_ & _ & Ht & _).
    unfold _onDidCreateGrammarFactory. remember (_killWorker s) as killed eqn:Ek.
    unfold keyed. destruct toggle; cbn; rewrite Ht; by intros ? ? ?%elem_of_nil.
  - unfold _onDidDisposeGrammarFactory, keyed.
    destruct (killWorker_spec s) as (_ & _ & -> & _). by intros ? ? ?%elem_of_nil.
  - case_bool_decide; [|done].
    unfold getProxy_then, forEach_onModelAdded. case_bool_decide; [done|].
    by apply keyed_forEach.
Qed.

Lemma keyed_run toggle (models : list ITextModel.t) evs :
  keyed (run toggle (TextMateService.new models) evs).
Proof.
  assert (keyed (TextMateService.new models)) as H.
  { rewrite new_service_unfold. by intros ? ? ?%elem_of_nil. }
  revert H. generalize (TextMateService.new models).
  induction evs as [|ev evs IH]; intros s H; cbn; [done|].
  by apply IH, keyed_step.
Qed.

(** At most one live synchroniser for a buffer, and none for a buffer that
  is gone: in every state the event loop reaches from a registry with one
  buffer for each URI, two synchronisers that still listen have different
  URIs, and the URI of a synchroniser that still listens is the URI of a
  buffer the registry knows (lines 123-141, 181-185). *)
Theorem X_one_listening_synchroniser_per_buffer toggle (models : list ITextModel.t) evs :
  NoDup (ITextModel.uri <$> models) ->
  let s := run toggle (TextMateService.new models) evs in
  (forall i j self self' l l',
     objects s !! i = Some self -> objects s !! j = Some self' ->
     ModelWorkerTextMateTokenizer.listens l self = true ->
     ModelWorkerTextMateTokenizer.listens l' self' = true ->
     ModelWorkerTextMateTokenizer.model_uri self = ModelWorkerTextMateTokenizer.model_uri self' ->
     i = j)
  /\ (forall i self l,
        objects s !! i = Some self ->
        ModelWorkerTextMateTokenizer.listens l self = true ->
        ModelWorkerTextMateTokenizer.model_uri self ∈ ITextModel.uri <$> _modelService s).
Proof.
  intros Hnd. cbv zeta.
  destruct (tidy_run toggle models evs Hnd) as (_ & T2 & T3 & _ & _ & T6).
  pose proof (keyed_run toggle models evs) as Hk.
  remember (run toggle (TextMateService.new models) evs) as s eqn:Es. clear Es.
  assert (forall i self l,
            objects s !! i = Some self ->
            ModelWorkerTextMateTokenizer.listens l self = true ->
            (ModelWorkerTextMateTokenizer.model_uri self, i) ∈ _tokenizers s) as Hreg.
  { intros i self l Hi Hl.
    pose proof (T6 i self l Hi Hl) as Hv.
    apply list_elem_of_fmap in Hv as ([k i'] & E & Hin).
    cbn in E. subst i'.
    destruct (Hk k i Hin) as (self0 & Hi0 & Hu).
    rewrite Hi in Hi0. injection Hi0 as <-. by rewrite Hu. }
  split.
  - intros i j self self' l l' Hi Hj Hl Hl' E.
    pose proof (Hreg i self l Hi Hl) as H1.
    pose proof (Hreg j self' l' Hj Hl') as H2. rewrite <- E in H2.
    by eapply JsObject_NoDup_keys_inj.
  - intros i self l Hi Hl. apply T3, list_elem_of_fmap.
    eexists (_, i). split; [|by eapply Hreg]. done.
Qed.

Lemma X_one_listening_synchroniser_per_buffer_witness :
  "file:///b.ts" ∈ ITextModel.uri <$> _modelService sample_service.
Proof.
  apply (proj2 (X_one_listening_synchroniser_per_buffer true
                  [sample_model; sample_detached]
                  [grammarFactoryCreated []; proxyResolved 0]
                  ltac:(apply (bool_decide_unpack _); by vm_compute))
           1 (ModelWorkerTextMateTokenizer.new 0 sample_detached).1 onDidChangeContent);
    reflexivity.
Defined.

(** *** A buffer added twice *)

Lemma JsObject_values_set_replaced key v o i x :
  JsObject.get key o = Some i -> NoDup o.*2 ->
  x ∈ (JsObject.set key v o).*2 -> x = v \/ (x ∈ o.*2 /\ x <> i).
Proof.
  induction o as [|[k y] o IH]; cbn; [done|].
  rewrite NoDup_cons. intros Hg [Hy Ho].
  destruct (String.eqb_spec k key) as [->|Hne]; cbn; rewrite !elem_of_cons.
  - injection Hg as ->. intros [->|Hx]; [by left|right].
    split; [by right|]. by intros ->.
  - intros [->|Hx].
    + right. split; [by left|]. intros ->. apply Hy.
      apply JsObject_get_Some_elem in Hg. apply list_elem_of_fmap. by exists (key, i).
    + destruct (IH Hg Ho Hx) as [->|[Hin Hxi]]; [by left|right]. split; [by right|done].
Qed.

(** A second buffer-added notification for a URI that has an entry (lines
  130-132) replaces the entry without disposing the synchroniser it
  referred to: that synchroniser is left as it was, no removal is sent for
  it, the map no longer refers to it, and a later [_killWorker] does not
  dispose it either. *)
Theorem X_second_add_leaves_first_synchroniser model proxy i s :
  registered s ->
  _workerProxy s = Some proxy ->
  ITextModel.isTooLargeForSyncing model = false ->
  JsObject.get (ITextModel.uri model) (_tokenizers s) = Some i ->
  let s' := _onModelAdded model s in
  objects s' !! i = objects s !! i
  /\ (i ∉ (_tokenizers s').*2)
  /\ JsObject.get (ITextModel.uri model) (_tokenizers s') = Some (length (objects s))
  /\ log s' = log s ++ (call proxy <$> constructor_calls model)
  /\ objects (_killWorker s') !! i = objects s !! i.
Proof.
  intros [Hlt Hnd] Hp Hm Hg. cbv zeta.
  assert (i < length (objects s)) as Hi.
  { apply JsObject_get_Some_elem in Hg. rewrite Forall_forall in Hlt.
    by apply (Hlt _ Hg). }
  destruct (killWorker_spec (_onModelAdded model s))
    as (_ & _ & _ & _ & _ & _ & _ & _ & _ & _ & Hout).
  rewrite (onModelAdded_unfold proxy) in * by done. cbn in *.
  assert (i ∉ (JsObject.set (ITextModel.uri model) (length (objects s)) (_tokenizers s)).*2)
    as Hi'.
  { intros [->|[_ Hne]]%(JsObject_values_set_replaced _ _ _ i); [lia|done|done|done]. }
  split_and!; try done.
  - by rewrite lookup_app_l.
  - apply JsObject_get_set_eq.
  - by rewrite new_unfold.
  - rewrite (Hout i Hi'). by rewrite lookup_app_l.
Qed.

Lemma X_second_add_leaves_first_synchroniser_witness :
  objects (_killWorker (_onModelAdded sample_model sample_service)) !! 0
  = objects sample_service !! 0.
Proof.
  assert (registered sample_service) as H.
  { vm_compute. split.
    - repeat (apply Forall_cons; split; [lia|]). apply Forall_nil_2.
    - apply (bool_decide_unpack _). by vm_compute. }
  assert (_workerProxy sample_service = Some 0) as Hp by (vm_compute; reflexivity).
  assert (JsObject.get (ITextModel.uri sample_model) (_tokenizers sample_service) = Some 0)
    as Hg by (vm_compute; reflexivity).
  exact (proj2 (proj2 (proj2 (proj2
           (X_second_add_leaves_first_synchroniser sample_model 0 0 sample_service
              H Hp eq_refl Hg))))).
Defined.

(** *** Between a kill and the next resolution *)

Lemma notify_deaf ev m (os : list ModelWorkerTextMateTokenizer.t) :
  (forall i self l, os !! i = Some self ->
     ModelWorkerTextMateTokenizer.listens l self = false) ->
  notify ev m os = (os, []).
Proof.
  induction os as [|self os IH]; intros H; cbn; [done|].
  rewrite IH by (intros i; apply (H (S i))).
  assert (fire ev m self = (self, [])) as Hf.
  { unfold fire. by rewrite (H 0 self (emitter ev)). }
  rewrite Hf. by destruct (Nat.eqb _ _).
Qed.

Lemma dormant_buffer_step toggle s ev :
  buffer_event ev = true -> dormant s ->
  dormant (step toggle s ev)
  /\ log (step toggle s ev) = log s /\ objects (step toggle s ev) = objects s.
Proof.
  intros Hev (Hp & Ht & Hdeaf).
  destruct ev as [model|u|u ev|defs| |worker]; try done; cbn [step].
  - case_bool_decide; [done|]. by rewrite onModelAdded_ignored by (by left).
  - destruct (getModel _ _); [|done].
    unfold _onModelRemoved. cbn. by rewrite Ht.
  - destruct (getModel _ _); [|done].
    rewrite (notify_deaf _ _ _ Hdeaf). unfold dormant. cbn.
    by rewrite app_nil_r.
Qed.

(** Without a proxy there is no traffic (lines 124-126, 181-191): from
  any state the event loop reaches, after a grammar set is created or
  disposed, whatever buffers are added, removed, attached, detached or
  edited, nothing is sent and no synchroniser is created until a promise
  resolves; the log and the store stay as the kill left them. *)
Theorem X_no_traffic_between_kill_and_resolution
    toggle (models : list ITextModel.t) evs gev bevs :
  NoDup (ITextModel.uri <$> models) ->
  grammar_event gev = true ->
  forallb buffer_event bevs = true ->
  let s := step toggle (run toggle (TextMateService.new models) evs) gev in
  let s' := run toggle s bevs in
  log s' = log s /\ objects s' = objects s
  /\ _tokenizers s' = [] /\ _workerProxy s' = None /\ _worker s' = _worker s.
Proof.
  intros Hnd Hg Hb. cbv zeta.
  destruct (tidy_run toggle models evs Hnd) as (_ & _ & _ & _ & _ & T6).
  remember (run toggle (TextMateService.new models) evs) as s0 eqn:Es0. clear Es0.
  assert (dormant (step toggle s0 gev)) as Hd.
  { destruct (killWorker_spec s0) as (Hw & Hp & Ht & _).
    pose proof (fun i self l => killWorker_silences s0 i self l T6) as Hdeaf.
    destruct gev as [| | |defs| |]; try done; cbn [step].
    unfold _onDidCreateGrammarFactory.
    remember (_killWorker s0) as killed eqn:Ek. by destruct toggle. }
  remember (step toggle s0 gev) as s eqn:Es. clear Es.
  assert (forall bevs s1, forallb buffer_event bevs = true -> dormant s1 ->
            dormant (run toggle s1 bevs)
            /\ log (run toggle s1 bevs) = log s1
            /\ objects (run toggle s1 bevs) = objects s1
            /\ _worker (run toggle s1 bevs) = _worker s1) as Hrun.
  { clear. intros bevs. induction bevs as [|ev bevs IH]; intros s1 Hb Hd; [done|].
    cbn in Hb. apply andb_true_iff in Hb as [Hev Hb].
    change (run toggle s1 (ev :: bevs)) with (run toggle (step toggle s1 ev) bevs).
    destruct (dormant_buffer_step toggle s1 ev Hev Hd) as (Hd' & El & Eo).
    destruct (IH _ Hb Hd') as (Hd'' & -> & -> & ->).
    split_and!; try done.
    destruct Hd as (Hp & Ht & _).
    destruct ev as [model|u|u ev|defs| |worker]; try done; cbn [step].
    - case_bool_decide; [done|]. by rewrite onModelAdded_ignored by (by left).
    - destruct (getModel _ _); [|done]. unfold _onModelRemoved. cbn. by rewrite Ht.
    - destruct (getModel _ _); [|done]. by destruct (notify _ _ _). }
  destruct (Hrun bevs s Hb Hd) as ((Hp & Ht & _) & El & Eo & Ew). done.
Qed.

Lemma X_no_traffic_between_kill_and_resolution_witness :
  log (run true sample_spawned
         [modelAdded sample_model; modelEvent "file:///b.ts" (changeAttached true)])
  = log sample_spawned.
Proof.
  apply (X_no_traffic_between_kill_and_resolution true
           [sample_detached; sample_oversized] [] (grammarFactoryCreated [])
           [modelAdded sample_model; modelEvent "file:///b.ts" (changeAttached true)]).
  - apply (bool_decide_unpack _). by vm_compute.
  - reflexivity.
  - reflexivity.
Defined.

End ManagerLifetime.

(** ** The grammar factory *)

Section GrammarFactory.

Import TextMateService.

Implicit Types (s : TextMateService.t) (m model : ITextModel.t).

Lemma fresh_ids_onModelAdded model s : fresh_ids s -> fresh_ids (_onModelAdded model s).
Proof.
  intros H.
  destruct (_workerProxy s) as [proxy|] eqn:Ep;
    [|by rewrite onModelAdded_ignored by tauto].
  destruct (ITextModel.isTooLargeForSyncing model) eqn:Em;
    [by rewrite onModelAdded_ignored by (right; done)|].
  by rewrite (onModelAdded_unfold proxy).
Qed.

Lemma fresh_ids_forEach (models : list ITextModel.t) s :
  fresh_ids s -> fresh_ids (foldl (fun s model => _onModelAdded model s) s models).
Proof.
  revert s. induction models as [|m models IH]; intros s H; cbn; [done|].
  by apply IH, fresh_ids_onModelAdded.
Qed.

Lemma fresh_ids_step toggle s ev : fresh_ids s -> fresh_ids (step toggle s ev).
Proof.
  intros H. destruct ev as [model|u|u ev|defs| |worker]; cbn [step].
  - case_bool_decide; [done|]. by apply fresh_ids_onModelAdded.
  - destruct (getModel _ _); [|done]. unfold _onModelRemoved.
    destruct (JsObject.get _ _); [|done]. by rewrite tokenizer_dispose_unfold.
  - destruct (getModel _ _); [|done]. by destruct (notify _ _ _).
  - destruct (killWorker_spec s) as (Hw & _ & _ & _ & Hnw & _).
    unfold _onDidCreateGrammarFactory, fresh_ids.
    remember (_killWorker s) as killed eqn:Ek.
    destruct toggle; cbn; [|by rewrite Hw].
    intros worker [= <-]. lia.
  - unfold _onDidDisposeGrammarFactory, fresh_ids.
    destruct (killWorker_spec s) as (-> & _). done.
  - case_bool_decide; [|done].
    unfold getProxy_then, forEach_onModelAdded. case_bool_decide; [done|].
    by apply fresh_ids_forEach.
Qed.

Lemma fresh_ids_run toggle (models : list ITextModel.t) evs :
  fresh_ids (run toggle (TextMateService.new models) evs).
Proof.
  assert (fresh_ids (TextMateService.new models)) as H
    by (by rewrite new_service_unfold).
  revert H. generalize (TextMateService.new models).
  induction evs as [|ev evs IH]; intros s H; cbn; [done|].
  by apply IH, fresh_ids_step.
Qed.

(** C9 (the claim as stated fails): the spawn does not follow the
  configuration. A manager constructed with a configuration that enables
  worker-offload mode spawns no worker on a grammar set created: the
  toggle the handler tests is the module constant of line 24, and the
  configuration service is never read. *)
Lemma C9_configuration_toggle_is_not_read :
  ~ spawns_as_configured sample_configuration [sample_model] [].
Proof.
  unfold spawns_as_configured. intros [_ H].
  destruct (H eq_refl) as [worker Hw]. vm_compute in Hw.
  by apply elem_of_nil in Hw.
Qed.

(** C9 (amended): on a grammar set created the manager first kills: it
  disposes every synchroniser of the map, each sending its removal, in the
  order of the map, then disposes the worker if there is one, empties the
  map and clears the worker and the proxy reference; after that it creates
  a worker, which becomes the live one with its promise pending, if and
  only if the toggle is on. The toggle is the module constant
  [RUN_TEXTMATE_IN_WORKER], [false] in the source; it is not read from the
  configuration, of which the manager keeps nothing, so that on the source
  no worker is created whatever the configuration. On a grammar set
  disposed the manager kills in the same way and creates nothing. In every
  state the event loop reaches, the worker created is not the one
  killed. *)
Theorem C9_grammar_factory_events toggle grammarDefinitions s :
  let s' := _onDidCreateGrammarFactory toggle grammarDefinitions s in
  let d := _onDidDisposeGrammarFactory s in
  let removals := concat (removal (objects s) <$> (_tokenizers s).*2) in
  let worker_disposal :=
    match _worker s with Some worker => [worker_dispose worker] | None => [] end in
  (log s' =
     log s ++ removals ++ worker_disposal ++
       (if toggle then [createWebWorker (nextWorker s) grammarDefinitions] else [])
   /\ _worker s' = (if toggle then Some (nextWorker s) else None)
   /\ _workerProxy s' = None /\ _tokenizers s' = []
   /\ pending s' = pending s ++ (if toggle then [nextWorker s] else [])
   /\ (forall i, i ∈ (_tokenizers s).*2 ->
         objects s' !! i = ModelWorkerTextMateTokenizer.super_dispose <$> objects s !! i)
   /\ (forall i, i ∉ (_tokenizers s).*2 -> objects s' !! i = objects s !! i))
  /\ (log d = log s ++ removals ++ worker_disposal
      /\ _worker d = None /\ _workerProxy d = None /\ _tokenizers d = []
      /\ pending d = pending s
      /\ (forall i, i ∈ (_tokenizers s).*2 ->
            objects d !! i = ModelWorkerTextMateTokenizer.super_dispose <$> objects s !! i)
      /\ (forall i, i ∉ (_tokenizers s).*2 -> objects d !! i = objects s !! i)
      /\ (forall worker defs,
            createWebWorker worker defs ∈ log d -> createWebWorker worker defs ∈ log s))
  /\ (forall configurationService (models : list ITextModel.t),
       let built := TextMateService_constructor configurationService models in
       let created :=
         _onDidCreateGrammarFactory RUN_TEXTMATE_IN_WORKER grammarDefinitions built in
       built = TextMateService.new models
       /\ _worker created = None /\ log created = [])
  /\ (forall (models : list ITextModel.t) evs,
       let r := run toggle (TextMateService.new models) evs in
       _worker r <> Some (nextWorker r)).
Proof.
  destruct (killWorker_spec s)
    as (Hw & Hp & Ht & _ & Hnw & _ & Hpe & Hl & _ & Hin & Hout).
  pose proof (killWorker_creates_no_worker s) as Hc.
  cbv zeta. split; [|split; [|split]].
  - unfold _onDidCreateGrammarFactory.
    remember (_killWorker s) as killed eqn:Ek.
    destruct toggle; cbn; rewrite ?Hw, ?Hp, ?Ht, ?Hnw, ?Hpe, ?Hl, ?app_nil_r,
      <- ?app_assoc; split_and!; done.
  - unfold _onDidDisposeGrammarFactory. split_and!; done.
  - intros configurationService models.
    unfold TextMateService_constructor. rewrite new_service_unfold.
    split_and!; reflexivity.
  - intros models evs Hr.
    pose proof (fresh_ids_run toggle models evs _ Hr). lia.
Qed.

Lemma C9_witness :
  log (_onDidCreateGrammarFactory true [] sample_service) =
    log sample_service ++
      [call 0 (acceptRemovedModel "file:///a.ts");
       call 0 (acceptRemovedModel "file:///b.ts");
       worker_dispose 0;
       createWebWorker 1 []]
  /\ objects (_onDidDisposeGrammarFactory sample_service) !! 1
     = ModelWorkerTextMateTokenizer.super_dispose <$> objects sample_service !! 1.
Proof.
  split.
  - pose proof (proj1 (proj1 (C9_grammar_factory_events true [] sample_service))) as Hl.
    vm_compute in Hl. vm_compute. exact Hl.
  - apply (proj2 (C9_grammar_factory_events true [] sample_service)).
    vm_compute. apply list_elem_of_further, list_elem_of_here.
Defined.

End GrammarFactory.
